(** * reana-client, [reana_client/cli/files.py]: the [files] command group

    A shallow embedding of the three click commands [list], [download] and
    [upload] together with the part of the Python runtime they touch
    (exceptions and their class hierarchy, [str]/[repr], [os.path], a small
    file system), followed by the properties of the commands.

    The commands are effectful glue: they log, print, call the injected
    client, and write files.  They are embedded in a state-and-exception
    monad over a [World] that records every effect. *)

From Stdlib Require Import ZArith Lia List Ascii String.
From stdpp Require Import base option list strings pretty gmap fin_maps.

Local Open Scope string_scope.
Local Open Scope Z_scope.

(** ** Python runtime *)

Module Py.

(** The exception classes that occur in the module or in its
    collaborators; all of them derive from [Exception]. *)
Inductive exc_class :=
| Exception
| OSError
| ConnectionError
| FileNotFoundError
| FileExistsError
| NotADirectoryError
| IsADirectoryError
| PermissionError
| LookupError
| KeyError
| AttributeError
| FileUploadError.

#[global] Instance exc_class_eq_dec : EqDecision exc_class.
Proof. solve_decision. Defined.

(** Modelled from the spec: [FileUploadError] is declared in
    [reana_client.errors], which is not among the sources at hand; the
    specification calls it a distinguished kind of failure of the upload,
    which makes it an exception class of its own, directly below
    [Exception]. *)
Definition FileUploadError_base : exc_class := Exception.

(** The direct base class ([None] for [Exception], whose own base
    [BaseException] is not needed here). *)
Definition base (c : exc_class) : option exc_class :=
  match c with
  | Exception => None
  | FileUploadError => Some FileUploadError_base
  | OSError | LookupError | AttributeError => Some Exception
  | ConnectionError | FileNotFoundError | FileExistsError
  | NotADirectoryError | IsADirectoryError | PermissionError => Some OSError
  | KeyError => Some LookupError
  end.

Fixpoint ancestors (fuel : nat) (c : exc_class) : list exc_class :=
  match fuel with
  | O => [c]
  | S k => c :: match base c with
                | Some b => ancestors k b
                | None => []
                end
  end.

(** The hierarchy above has depth three. *)
Definition mro (c : exc_class) : list exc_class := ancestors 3 c.

Definition issubclass (c d : exc_class) : bool :=
  bool_decide (d ∈ mro c).

(** An exception instance: its class and [str(e)]. *)
Record exn := mkExn { exn_class : exc_class; exn_str : string }.

Definition isinstance (e : exn) (c : exc_class) : bool :=
  issubclass (exn_class e) c.

Inductive result (A : Type) :=
| Ok (a : A)
| Raised (e : exn).
Arguments Ok {A} a.
Arguments Raised {A} e.

(** *** [repr] and [str]

    A [string] stands for a Python [str] whose characters are code points
    below 256, one [ascii] for each. *)

Definition hex_digit (n : N) : ascii :=
  ascii_of_N (if (n <? 10)%N then 48 + n else 87 + n)%N.

Definition backslash : ascii := ascii_of_N 92.
Definition dquote : ascii := ascii_of_N 34.
Definition squote : ascii := ascii_of_N 39.

Definition escape (c : ascii) : string := String backslash (String c EmptyString).

(** [str.isprintable] on one code point below 256: the controls
    (0 to 31, 127 to 159) are not printable, nor are the no-break space
    (160) and the soft hyphen (173). *)
Definition isprintable (n : N) : bool :=
  negb ((n <? 32) || ((127 <=? n) && (n <=? 160)) || (n =? 173))%N.

(** One character inside a string literal quoted with [q]. *)
Definition repr_char (q : ascii) (c : ascii) : string :=
  let n := N_of_ascii c in
  if Ascii.eqb c backslash then escape backslash
  else if Ascii.eqb c q then escape q
  else if (n =? 9)%N then escape "t"
  else if (n =? 10)%N then escape "n"
  else if (n =? 13)%N then escape "r"
  else if negb (isprintable n) then
    String backslash (String "x" (String (hex_digit (n / 16))
                                 (String (hex_digit (n mod 16)) EmptyString)))
  else String c EmptyString.

Fixpoint has_char (c : ascii) (s : string) : bool :=
  match s with
  | EmptyString => false
  | String a r => Ascii.eqb a c || has_char c r
  end.

Fixpoint repr_body (q : ascii) (s : string) : string :=
  match s with
  | EmptyString => EmptyString
  | String a r => repr_char q a +:+ repr_body q r
  end.

(** [repr(s)] for a [str]: single quotes, unless the string holds a single
    quote and no double quote. *)
Definition repr_str (s : string) : string :=
  let q : ascii := if has_char squote s && negb (has_char dquote s)
                   then dquote else squote in
  String q (repr_body q s) +:+ String q EmptyString.

Fixpoint join_with (sep : string) (l : list string) : string :=
  match l with
  | [] => EmptyString
  | [x] => x
  | x :: r => x +:+ sep +:+ join_with sep r
  end.

(** The values click binds to parameters of these commands. *)
Inductive value :=
| VNone
| VInt (z : Z)
| VStr (s : string)
| VTuple (l : list string).

Definition str (v : value) : string :=
  match v with
  | VNone => "None"
  | VInt z => pretty z
  | VStr s => s
  | VTuple [] => "()"
  | VTuple [x] => "(" +:+ repr_str x +:+ ",)"
  | VTuple l => "(" +:+ join_with ", " (map repr_str l) +:+ ")"
  end.

Definition of_opt (o : option string) : value :=
  match o with
  | Some s => VStr s
  | None => VNone
  end.

(** Truth value of an optional string: [None] and [''] are false. *)
Definition truthy (o : option string) : bool :=
  match o with
  | Some (String _ _) => true
  | _ => false
  end.

(** The string held by an option that passed a truth test. *)
Definition the (o : option string) : string := str (of_opt o).

(** [s.replace(a, b)] for single characters. *)
Fixpoint replace_char (a b : ascii) (s : string) : string :=
  match s with
  | EmptyString => EmptyString
  | String c r => String (if Ascii.eqb c a then b else c) (replace_char a b r)
  end.

End Py.

(** ** [os.path] and the file system *)

Module Os.
Import Py.

Definition slash : ascii := ascii_of_N 47.

Definition startswith_slash (s : string) : bool :=
  match s with
  | String c _ => Ascii.eqb c slash
  | EmptyString => false
  end.

Fixpoint endswith_slash (s : string) : bool :=
  match s with
  | EmptyString => false
  | String c EmptyString => Ascii.eqb c slash
  | String _ r => endswith_slash r
  end.

(** [posixpath.join(a, b)]: an absolute [b] discards [a]; otherwise the
    two are concatenated with exactly one separator between them, none
    when [a] is empty or already ends with one. *)
Definition path_join (a b : string) : string :=
  if startswith_slash b then b
  else if (String.length a =? 0)%nat || endswith_slash a then a +:+ b
  else a +:+ String slash EmptyString +:+ b.

Fixpoint drop_slashes (l : list ascii) : list ascii :=
  match l with
  | c :: r => if Ascii.eqb c slash then drop_slashes r else l
  | [] => []
  end.

(** Drops the characters after the last slash of a reversed path. *)
Fixpoint drop_tail (l : list ascii) : list ascii :=
  match l with
  | c :: r => if Ascii.eqb c slash then l else drop_tail r
  | [] => []
  end.

(** [posixpath.dirname(p)]: everything up to the last slash, with
    trailing slashes removed unless it consists of slashes only. *)
Definition path_dirname (p : string) : string :=
  let head := drop_tail (rev (list_ascii_of_string p)) in
  string_of_list_ascii
    (rev (match drop_slashes head with
          | [] => head
          | stripped => stripped
          end)).

(** The characters of a reversed path that come before its first slash. *)
Fixpoint take_tail (l : list ascii) : list ascii :=
  match l with
  | c :: r => if Ascii.eqb c slash then [] else c :: take_tail r
  | [] => []
  end.

(** [posixpath.basename(p)]: what follows the last slash. *)
Definition path_basename (p : string) : string :=
  string_of_list_ascii (rev (take_tail (rev (list_ascii_of_string p)))).

(** [posixpath.split(p)] *)
Definition path_split (p : string) : string * string :=
  (path_dirname p, path_basename p).

(** *** A file system

    Nodes are addressed by the list of their path components below the
    root.  Symbolic links and permissions are not modelled. *)

Inductive node :=
| Dir
| File (content : list Byte.byte).

Record FS := mkFS { cwd : list string; tree : gmap (list string) node }.

(** Splits at slashes; consecutive slashes give empty components. *)
Fixpoint split_slash (cur : string) (s : string) : list string :=
  match s with
  | EmptyString => [String.rev cur]
  | String c r =>
      if Ascii.eqb c slash then String.rev cur :: split_slash EmptyString r
      else split_slash (String c cur) r
  end.

(** One component applied to a position: an empty component and [.] stay,
    [..] goes to the parent (the root is its own parent), a name goes to
    the child.  The file system takes such a step in an existing directory
    only, see [descend]. *)
Definition walk (stack : list string) (c : string) : list string :=
  if String.eqb c EmptyString || String.eqb c "." then stack
  else if String.eqb c ".." then removelast stack
  else stack ++ [c].

(** Where the components of a path start. *)
Definition start_of (fs : FS) (p : string) : list string :=
  if startswith_slash p then [] else cwd fs.

(** The position a path names when [.] and [..] are cancelled in the text,
    as [os.path.normpath] does; the empty path names nothing.  It says
    which node a statement is about.  The calls of the file system
    ([path_exists], [isdir], [mkdir], [makedirs], [write_binary],
    [read_binary]) do not use it: they walk the directories, see
    [lookup]. *)
Definition resolve (fs : FS) (p : string) : option (list string) :=
  match p with
  | EmptyString => None
  | _ => Some (fold_left walk (split_slash EmptyString p)
                         (if startswith_slash p then [] else cwd fs))
  end.

Definition node_at (fs : FS) (c : list string) : option node :=
  match c with
  | [] => Some Dir
  | _ => tree fs !! c
  end.

(** The content of the regular file at the position that [p] names, if
    there is one. *)
Definition read_file (fs : FS) (p : string) : option (list Byte.byte) :=
  match resolve fs p with
  | Some c => match node_at fs c with
              | Some (File b) => Some b
              | _ => None
              end
  | None => None
  end.

Definition os_error (c : exc_class) (errno : string) (what : string) (p : string) : exn :=
  mkExn c ("[Errno " +:+ errno +:+ "] " +:+ what +:+ ": " +:+ repr_str p).

Definition enoent := os_error FileNotFoundError "2" "No such file or directory".
Definition eexist := os_error FileExistsError "17" "File exists".
Definition enotdir := os_error NotADirectoryError "20" "Not a directory".
Definition eisdir := os_error IsADirectoryError "21" "Is a directory".

(** The walk the system makes along the components of the path [p], from
    the position [cur].  Every component, [.] and [..] included, is looked
    up in the position reached so far, which has to be an existing
    directory: at a regular file the walk fails with ENOTDIR, at nothing
    with ENOENT.  The position the last component leads to is not
    examined. *)
Fixpoint descend (fs : FS) (p : string) (cur : list string) (comps : list string)
  : result (list string) :=
  match comps with
  | [] => Ok cur
  | c :: rest =>
      match node_at fs cur with
      | Some Dir => descend fs p (walk cur c) rest
      | Some (File _) => Raised (enotdir p)
      | None => Raised (enoent p)
      end
  end.

(** The position the path [p] leads to; the empty path leads nowhere. *)
Definition lookup (fs : FS) (p : string) : result (list string) :=
  match p with
  | EmptyString => Raised (enoent p)
  | _ => descend fs p (start_of fs p) (split_slash EmptyString p)
  end.

(** [os.path.exists(p)] *)
Definition path_exists (fs : FS) (p : string) : bool :=
  match lookup fs p with
  | Ok c => bool_decide (is_Some (node_at fs c))
  | Raised _ => false
  end.

(** [os.path.isdir(p)] *)
Definition isdir (fs : FS) (p : string) : bool :=
  match lookup fs p with
  | Ok c => match node_at fs c with
            | Some Dir => true
            | _ => false
            end
  | Raised _ => false
  end.

(** Whether a component is a name, and not empty, [.] or [..]. *)
Definition is_name (c : string) : bool :=
  negb (String.eqb c EmptyString || String.eqb c "." || String.eqb c "..").

(** Whether the last component of [p] is empty, [.] or [..]: such a path
    can only name a directory. *)
Definition names_directory (p : string) : bool :=
  negb (is_name (List.last (split_slash EmptyString p) EmptyString)).

(** The components without the empty ones at the end. *)
Fixpoint strip_empty (l : list string) : list string :=
  match l with
  | [] => []
  | c :: r =>
      match strip_empty r with
      | [] => if String.eqb c EmptyString then [] else [c]
      | r' => c :: r'
      end
  end.

(** [os.mkdir(p)]: creates the directory [p] in an existing directory;
    slashes at the end of [p] are ignored.  Fails with EEXIST when [p]
    leads to something that exists. *)
Definition mkdir (fs : FS) (p : string) : result FS :=
  match p with
  | EmptyString => Raised (enoent p)
  | _ =>
      let comps := strip_empty (split_slash EmptyString p) in
      match descend fs p (start_of fs p) comps with
      | Raised e => Raised e
      | Ok c =>
          if bool_decide (is_Some (node_at fs c)) then Raised (eexist p)
          else if is_name (List.last comps EmptyString)
               then Ok (mkFS (cwd fs) (<[c := Dir]> (tree fs)))
               else Raised (enoent p)
      end
  end.

Definition is_empty (s : string) : bool := String.eqb s EmptyString.

(** The first lines of [os.makedirs(name)]:
<<
    head, tail = path.split(name)
    if not tail:
        head, tail = path.split(head)
>> *)
Definition makedirs_split (name : string) : string * string :=
  let (head, tail) := path_split name in
  if is_empty tail then path_split head else (head, tail).

(** [mkdir(name)] on the file system [fs]: the file system it leaves and
    the exception it raises, if any. *)
Definition mkdir_step (name : string) (fs : FS) : FS * option exn :=
  match mkdir fs name with
  | Ok fs' => (fs', None)
  | Raised e => (fs, Some e)
  end.

(** [os.makedirs(name)] with [exist_ok=False], as the standard library
    defines it:
<<
    head, tail = path.split(name)
    if not tail:
        head, tail = path.split(head)
    if head and tail and not path.exists(head):
        try:
            makedirs(head)
        except FileExistsError:
            pass
        if tail == curdir:
            return
    mkdir(name)
>>
    The result is the file system it leaves and the exception it raises,
    if any: what the recursive calls created stays when a later step
    fails.  [fuel] bounds the recursion; the length of [name] is enough,
    since [head] is shorter than [name] whenever the recursive call is
    made (lemma [makedirs_run_fuel]). *)
Fixpoint makedirs_run (fuel : nat) (fs : FS) (name : string) : FS * option exn :=
  let (head, tail) := makedirs_split name in
  if negb (is_empty head) && negb (is_empty tail) && negb (path_exists fs head) then
    match fuel with
    | O => mkdir_step name fs
    | S k =>
        let (fs', raised) := makedirs_run k fs head in
        match raised with
        | Some e =>
            if isinstance e FileExistsError
            then if String.eqb tail "." then (fs', None) else mkdir_step name fs'
            else (fs', Some e)
        | None => if String.eqb tail "." then (fs', None) else mkdir_step name fs'
        end
    end
  else mkdir_step name fs.

(** [os.makedirs(p)] seen as a function: the file system of a call that
    returned, or the exception of a call that raised. *)
Definition makedirs (fs : FS) (p : string) : result FS :=
  match makedirs_run (String.length p) fs p with
  | (fs', None) => Ok fs'
  | (_, Some e) => Raised e
  end.

(** [open(p, 'wb')], [write(b)] and close: creates or truncates the
    regular file [p] in an existing directory and stores exactly [b]. *)
Definition write_binary (fs : FS) (p : string) (b : list Byte.byte) : result FS :=
  match lookup fs p with
  | Raised e => Raised e
  | Ok c =>
      match node_at fs c with
      | Some Dir => Raised (eisdir p)
      | _ =>
          if names_directory p then Raised (eisdir p)
          else Ok (mkFS (cwd fs) (<[c := File b]> (tree fs)))
      end
  end.

(** [open(p, 'rb').read()] *)
Definition read_binary (fs : FS) (p : string) : result (list Byte.byte) :=
  match lookup fs p with
  | Raised e => Raised e
  | Ok c =>
      match node_at fs c with
      | Some (File b) => Ok b
      | Some Dir => Raised (eisdir p)
      | None => Raised (enoent p)
      end
  end.

End Os.

(** ** The world the commands act on *)

Module Client.

(** A call of a method of the injected client, with its arguments. *)
Inductive call :=
| get_files (workflow access_token : string)
| download_file (workflow file_name access_token : string)
| upload_to_server (workflow filename access_token : string).

(** A file record of the remote listing: a dict. *)
Definition record := list (string * Py.value).

(** The client is opaque.  Each method answers with a value or raises, and
    its answer may depend on every call made before. *)
Record t := mk {
  on_get_files :
    list call -> string -> string -> Py.result (list record);
  on_download_file :
    list call -> string -> string -> string -> Py.result (list Byte.byte);
  on_upload_to_server :
    list call -> string -> string -> string -> Py.result (list string)
}.

End Client.

Inductive level := DEBUG | INFO.

Inductive color := red | green.

(** One [click.echo]: the text and whether it went to the error stream. *)
Record echo_line := mkEcho { echo_text : string; echo_err : bool }.

Record World := mkWorld {
  logged : list (level * string);
  echoed : list echo_line;
  calls : list Client.call;
  files_on_disk : Os.FS
}.

(** [tablib.Dataset] as used here: headers and rows of strings. *)
Record Dataset := mkDataset { ds_headers : list string; ds_rows : list (list string) }.

(** What the command module imports or is handed from outside. *)
Record Env := mkEnv {
  (** [ctx.obj.client] *)
  client : Client.t;
  (** [ERROR_MESSAGES['missing_access_token']] of [reana_client.config] *)
  missing_access_token : string;
  (** [traceback.format_exc()] while the given exception is handled *)
  format_exc : Py.exn -> string;
  (** [Dataset.subset(rows=None, cols=...)]; [None] stands for Python's *)
  tablib_subset : Dataset -> list string -> Py.result (option Dataset);
  (** [Dataset.export(format)] *)
  tablib_export : Dataset -> string -> Py.result string;
  (** [reana_commons.utils.click_table_printer(headers, _filter, data)]:
      the lines it echoes, and the exception it raises after them if any *)
  click_table_printer :
    list string -> list string -> list (list string) -> list string * option Py.exn
}.

(** [click.Context]: what the commands read from it. *)
Record Context := mkContext {
  info_name : string;
  command_path : string;
  params : list (string * Py.value)
}.

(** ** The command monad: state, exceptions and [sys.exit] *)

Inductive outcome (A : Type) :=
| Return (a : A)
| Raise (e : Py.exn)
| Exit (code : Z).
Arguments Return {A} a.
Arguments Raise {A} e.
Arguments Exit {A} code.

Definition M (A : Type) : Type := World -> World * outcome A.

Definition ret {A} (a : A) : M A := fun w => (w, Return a).

Definition bind {A B} (m : M A) (k : A -> M B) : M B :=
  fun w =>
    match m w with
    | (w', Return a) => k a w'
    | (w', Raise e) => (w', Raise e)
    | (w', Exit c) => (w', Exit c)
    end.

Notation "x <- c1 ;; c2" := (bind c1 (fun x => c2))
  (at level 100, c1 at next level, right associativity).
Notation "c1 ;; c2" := (bind c1 (fun _ => c2))
  (at level 100, right associativity).

Definition raise {A} (e : Py.exn) : M A := fun w => (w, Raise e).

(** [sys.exit(code)]: [SystemExit] is no [Exception], so no handler of this
    module catches it. *)
Definition sys_exit {A} (code : Z) : M A := fun w => (w, Exit code).

Definition lift_result {A} (r : Py.result A) : M A :=
  match r with
  | Py.Ok a => ret a
  | Py.Raised e => raise e
  end.

(** [try: body except C1 as e: h1 e except C2 as e: h2 e]: the first clause
    whose class the exception is an instance of handles it. *)
Definition try_except {A} (body : M A)
    (handlers : list (Py.exc_class * (Py.exn -> M A))) : M A :=
  fun w =>
    match body w with
    | (w', Raise e) =>
        match find (fun h => Py.isinstance e (fst h)) handlers with
        | Some h => snd h e w'
        | None => (w', Raise e)
        end
    | r => r
    end.

(** [for x in l: body x] *)
Fixpoint for_ {A} (l : list A) (body : A -> M unit) : M unit :=
  match l with
  | [] => ret tt
  | x :: r => body x ;; for_ r body
  end.

(** [[f x for x in l]], built by appending in a loop. *)
Fixpoint map_M {A B} (f : A -> M B) (l : list A) : M (list B) :=
  match l with
  | [] => ret []
  | x :: r => y <- f x ;; ys <- map_M f r ;; ret (y :: ys)
  end.

(** The process exit status click derives from a command's outcome. *)
Definition exit_code {A} (o : outcome A) : option Z :=
  match o with
  | Return _ => Some 0
  | Exit c => Some c
  | Raise _ => None
  end.

(** *** Effects *)

Definition logging (l : level) (msg : string) : M unit :=
  fun w => (mkWorld (logged w ++ [(l, msg)]) (echoed w) (calls w) (files_on_disk w),
            Return tt).

Definition logging_debug := logging DEBUG.
Definition logging_info := logging INFO.

Definition esc : ascii := ascii_of_N 27.

(** [click.style(text, fg=c)]: the ANSI colour code, the text, a reset. *)
Definition style (text : string) (fg : color) : string :=
  String esc (match fg with red => "[31m" | green => "[32m" end)
  +:+ text +:+ String esc "[0m".

(** [click.echo(text, err=err)] *)
Definition echo (text : string) (err : bool) : M unit :=
  fun w => (mkWorld (logged w) (echoed w ++ [mkEcho text err]) (calls w) (files_on_disk w),
            Return tt).

(** A method call on [ctx.obj.client]: recorded, then answered. *)
Definition remote {A} (c : Client.call) (answer : list Client.call -> Py.result A)
  : M A :=
  fun w => (mkWorld (logged w) (echoed w) (calls w ++ [c]) (files_on_disk w),
            match answer (calls w) with
            | Py.Ok a => Return a
            | Py.Raised e => Raise e
            end).

(** [ctx.obj.client.get_files(workflow, access_token)] *)
Definition client_get_files (env : Env) (workflow access_token : string)
  : M (list Client.record) :=
  remote (Client.get_files workflow access_token)
         (fun hist => Client.on_get_files (client env) hist workflow access_token).

(** [ctx.obj.client.download_file(workflow, file_name, access_token)] *)
Definition client_download_file (env : Env) (workflow file_name access_token : string)
  : M (list Byte.byte) :=
  remote (Client.download_file workflow file_name access_token)
         (fun hist =>
            Client.on_download_file (client env) hist workflow file_name access_token).

(** [ctx.obj.client.upload_to_server(workflow, filename, access_token)] *)
Definition client_upload_to_server (env : Env) (workflow filename access_token : string)
  : M (list string) :=
  remote (Client.upload_to_server workflow filename access_token)
         (fun hist =>
            Client.on_upload_to_server (client env) hist workflow filename access_token).

Definition os_path_exists (p : string) : M bool :=
  fun w => (w, Return (Os.path_exists (files_on_disk w) p)).

Definition update_files (op : Os.FS -> Py.result Os.FS) : M unit :=
  fun w =>
    match op (files_on_disk w) with
    | Py.Ok fs' => (mkWorld (logged w) (echoed w) (calls w) fs', Return tt)
    | Py.Raised e => (w, Raise e)
    end.

(** [os.makedirs(p)]: what it created stays, also when it raises. *)
Definition os_makedirs (p : string) : M unit :=
  fun w =>
    let r := Os.makedirs_run (String.length p) (files_on_disk w) p in
    (mkWorld (logged w) (echoed w) (calls w) (fst r),
     match snd r with
     | None => Return tt
     | Some e => Raise e
     end).

(** [with open(p, 'wb') as f: f.write(b)] *)
Definition open_wb_write (p : string) (b : list Byte.byte) : M unit :=
  update_files (fun fs => Os.write_binary fs p b).

(** [d.get(key)] on a dict *)
Definition dict_get (d : Client.record) (key : string) : option Py.value :=
  snd <$> find (fun kv => String.eqb (fst kv) key) d.

(** [d[key]] on a dict *)
Definition getitem (d : Client.record) (key : string) : M Py.value :=
  match dict_get d key with
  | Some v => ret v
  | None => raise (Py.mkExn Py.KeyError (Py.repr_str key))
  end.

(** ** The commands of [files.py] *)

Import Py.

(** [def files(ctx)]: the group callback. *)
Definition files (ctx : Context) : M unit :=
  logging_debug (info_name ctx).

(** The first two statements of every command: the command path and every
    bound parameter go to the debug log. *)
Definition log_invocation (ctx : Context) : M unit :=
  logging_debug ("command: " +:+ replace_char " " "." (command_path ctx)) ;;
  for_ (params ctx)
       (fun p => logging_debug (fst p +:+ ": " +:+ str (snd p))).

(** [if not access_token: click.echo(...); sys.exit(1)] *)
Definition require_access_token (env : Env) (access_token : option string) : M unit :=
  if negb (truthy access_token) then
    echo (style (missing_access_token env) red) true ;;
    sys_exit 1
  else ret tt.

Definition missing_workflow_message : string :=
  "Workflow name must be provided either with "
  +:+ "`--workflow` option or with REANA_WORKON "
  +:+ "environment variable".

Definition headers : list string := ["name"; "size"; "last-modified"].

(** [list(map(str, [file_['name'], file_['size'], file_['last-modified']]))] *)
Definition project (file_ : Client.record) : M (list string) :=
  name <- getitem file_ "name" ;;
  size <- getitem file_ "size" ;;
  last_modified <- getitem file_ "last-modified" ;;
  ret (map str [name; size; last_modified]).

Definition none_has_no_export : exn :=
  mkExn AttributeError "'NoneType' object has no attribute 'export'".

(** The body of the [try] of [get_files]. *)
Definition get_files_try (env : Env) (workflow access_token : string)
    (_filter : list string) (output_format : option string) : M unit :=
  response <- client_get_files env workflow access_token ;;
  data <- map_M project response ;;
  if truthy output_format then
    let tablib_data := mkDataset headers data in
    tablib_data <- (match _filter with
                    | [] => ret (Some tablib_data)
                    | _ => lift_result (tablib_subset env tablib_data _filter)
                    end) ;;
    match tablib_data with
    | Some d =>
        exported <- lift_result (tablib_export env d (the output_format)) ;;
        echo exported false
    | None => raise none_has_no_export
    end
  else
    let printed := click_table_printer env headers _filter data in
    for_ (fst printed) (fun line => echo line false) ;;
    match snd printed with
    | Some e => raise e
    | None => ret tt
    end.

Definition get_files_failed (workflow : string) (e : exn) : string :=
  "Something went wrong while retrieving file list"
  +:+ " for workflow " +:+ workflow +:+ ":" +:+ String (ascii_of_N 10) (exn_str e).

(** ['Workflow "{}" selected'.format(workflow)] *)
Definition workflow_selected (workflow : string) : string :=
  "Workflow " +:+ String dquote workflow +:+ String dquote " selected".

(** [def get_files(ctx, workflow, _filter, output_format, access_token)] *)
Definition get_files (env : Env) (ctx : Context) (workflow : option string)
    (_filter : list string) (output_format access_token : option string) : M unit :=
  log_invocation ctx ;;
  require_access_token env access_token ;;
  if truthy workflow then
    logging_info (workflow_selected (the workflow)) ;;
    try_except
      (get_files_try env (the workflow) (the access_token) _filter output_format)
      [(Exception, fun e =>
          logging_debug (format_exc env e) ;;
          logging_debug (exn_str e) ;;
          echo (style (get_files_failed (the workflow) e) red) true)]
  else
    echo (style missing_workflow_message red) true.

Definition writing_message (file_name output_directory : string) : string :=
  file_name +:+ " binary file downloaded ... writing to " +:+ output_directory.

Definition downloaded_message (file_name output_directory : string) : string :=
  "File " +:+ file_name +:+ " downloaded to " +:+ output_directory +:+ ".".

Definition not_written_message (file_name : string) : string :=
  "File " +:+ file_name +:+ " could not be written.".

Definition not_downloaded_message (file_name : string) (e : exn) : string :=
  "File " +:+ file_name +:+ " could not be downloaded: " +:+ exn_str e.

(** The body of the [try] of [download_files], for one file name. *)
Definition download_try (env : Env) (workflow output_directory access_token : string)
    (file_name : string) : M unit :=
  binary_file <- client_download_file env workflow file_name access_token ;;
  logging_info (writing_message file_name output_directory) ;;
  let outputs_file_path := Os.path_join output_directory file_name in
  there <- os_path_exists (Os.path_dirname outputs_file_path) ;;
  (if negb there then os_makedirs (Os.path_dirname outputs_file_path) else ret tt) ;;
  open_wb_write outputs_file_path binary_file ;;
  echo (style (downloaded_message file_name output_directory) green) false.

(** One turn of the loop of [download_files]. *)
Definition download_one (env : Env) (workflow output_directory access_token : string)
    (file_name : string) : M unit :=
  try_except
    (download_try env workflow output_directory access_token file_name)
    [(OSError, fun e =>
        logging_debug (format_exc env e) ;;
        logging_debug (exn_str e) ;;
        echo (style (not_written_message file_name) red) true);
     (Exception, fun e =>
        logging_debug (format_exc env e) ;;
        logging_debug (exn_str e) ;;
        echo (style (not_downloaded_message file_name e) red) true)].

(** [def download_files(ctx, workflow, file_, output_directory, access_token)] *)
Definition download_files (env : Env) (ctx : Context) (workflow : option string)
    (file_ : list string) (output_directory : string)
    (access_token : option string) : M unit :=
  log_invocation ctx ;;
  require_access_token env access_token ;;
  if truthy workflow then
    for_ file_ (download_one env (the workflow) output_directory (the access_token))
  else
    echo (style missing_workflow_message red) true.

Definition uploaded_message (file_ : string) : string :=
  "File " +:+ file_ +:+ " was successfully uploaded.".

Definition upload_error_message (filename : string) (e : exn) : string :=
  "Something went wrong while uploading " +:+ filename +:+ "."
  +:+ String (ascii_of_N 10) (exn_str e).

Definition upload_failed_message (filename : string) : string :=
  "Something went wrong while uploading " +:+ filename.

(** One turn of the loop of [upload_files]. *)
Definition upload_one (env : Env) (workflow access_token : string)
    (filename : string) : M unit :=
  try_except
    (response <- client_upload_to_server env workflow filename access_token ;;
     for_ response (fun file_ => echo (style (uploaded_message file_) green) false))
    [(FileUploadError, fun e =>
        logging_debug (format_exc env e) ;;
        logging_debug (exn_str e) ;;
        echo (style (upload_error_message filename e) red) true);
     (Exception, fun e =>
        logging_debug (format_exc env e) ;;
        logging_debug (exn_str e) ;;
        echo (style (upload_failed_message filename) red) true)].

(** [def upload_files(ctx, workflow, filenames, access_token)] *)
Definition upload_files (env : Env) (ctx : Context) (workflow : option string)
    (filenames : list string) (access_token : option string) : M unit :=
  log_invocation ctx ;;
  require_access_token env access_token ;;
  if truthy workflow then
    for_ filenames (upload_one env (the workflow) (the access_token))
  else
    echo (style missing_workflow_message red) true.

(** ** Vocabulary of the properties *)

Definition log_more (l : list (level * string)) (w : World) : World :=
  mkWorld (logged w ++ l) (echoed w) (calls w) (files_on_disk w).

Definition echo_more (l : list echo_line) (w : World) : World :=
  mkWorld (logged w) (echoed w ++ l) (calls w) (files_on_disk w).

Definition call_more (l : list Client.call) (w : World) : World :=
  mkWorld (logged w) (echoed w) (calls w ++ l) (files_on_disk w).

Definition set_files (fs : Os.FS) (w : World) : World :=
  mkWorld (logged w) (echoed w) (calls w) fs.

(** What [log_invocation] writes. *)
Definition invocation_log (ctx : Context) : list (level * string) :=
  (DEBUG, "command: " +:+ replace_char " " "." (command_path ctx))
  :: map (fun p => (DEBUG, fst p +:+ ": " +:+ str (snd p))) (params ctx).

(** A file record with the three fields the listing shows. *)
Definition has_fields (r : Client.record) : Prop :=
  Forall (fun key => is_Some (dict_get r key)) headers.

(** The string triple (name, size, last-modified) of a file record, in the
    words of the specification. *)
Definition string_triple (r : Client.record) : list string :=
  map (fun key => str (default VNone (dict_get r key))) headers.

(** Whether [needle] occurs in [hay]. *)
Fixpoint contains (needle hay : string) : bool :=
  String.prefix needle hay
  || match hay with
     | String _ rest => contains needle rest
     | EmptyString => false
     end.

(** No message of the log shows the token. *)
Definition token_never_logged (token : string) (w : World) : Prop :=
  forall l msg, In (l, msg) (logged w) -> contains token msg = false.

(** A call with another token in place of its own. *)
Definition retoken (token : string) (c : Client.call) : Client.call :=
  match c with
  | Client.get_files workflow _ => Client.get_files workflow token
  | Client.download_file workflow file_name _ =>
      Client.download_file workflow file_name token
  | Client.upload_to_server workflow filename _ =>
      Client.upload_to_server workflow filename token
  end.

(** The token a call carries. *)
Definition token_of (c : Client.call) : string :=
  match c with
  | Client.get_files _ access_token => access_token
  | Client.download_file _ _ access_token => access_token
  | Client.upload_to_server _ _ access_token => access_token
  end.

(** A client that answers the tokens [t1] and [t2] alike: after calls made
    with [t1], a call with [t1] is answered as the same call with [t2] is
    after the same calls made with [t2].  Nothing is asked about any other
    token: a client that accepts these two and refuses the rest answers
    them alike. *)
Definition answers_alike (c : Client.t) (t1 t2 : string) : Prop :=
  forall hist,
    Forall (fun k => token_of k = t1) hist ->
    (forall workflow,
       Client.on_get_files c (map (retoken t2) hist) workflow t2
       = Client.on_get_files c hist workflow t1)
    /\ (forall workflow file_name,
       Client.on_download_file c (map (retoken t2) hist) workflow file_name t2
       = Client.on_download_file c hist workflow file_name t1)
    /\ (forall workflow filename,
       Client.on_upload_to_server c (map (retoken t2) hist) workflow filename t2
       = Client.on_upload_to_server c hist workflow filename t1).

(** Two worlds that differ in what the logs started with and in the token
    of the calls made ([t1] in the first, [t2] in the second), and in
    nothing else. *)
Definition alike (t1 t2 : string) (L1 L2 : list (level * string)) (w1 w2 : World)
  : Prop :=
  exists l,
    logged w1 = (L1 ++ l)%list
    /\ logged w2 = (L2 ++ l)%list
    /\ echoed w2 = echoed w1
    /\ files_on_disk w2 = files_on_disk w1
    /\ Forall (fun k => token_of k = t1) (calls w1)
    /\ calls w2 = map (retoken t2) (calls w1).

(** Two computations that take alike worlds to alike worlds, with the same
    outcome. *)
Definition sim (t1 t2 : string) (L1 L2 : list (level * string)) {A} (m1 m2 : M A)
  : Prop :=
  forall w1 w2,
    alike t1 t2 L1 L2 w1 w2 ->
    alike t1 t2 L1 L2 (fst (m1 w1)) (fst (m2 w2)) /\ snd (m1 w1) = snd (m2 w2).

(** A computation that ends by returning, whatever the world. *)
Definition returns (m : M unit) : Prop :=
  forall w, exists w', m w = (w', Return tt).

(** A computation that never ends in [sys.exit]. *)
Definition never_exits {A} (m : M A) : Prop :=
  forall w w' c, m w <> (w', Exit c).

(** The slashes a list of characters starts with. *)
Fixpoint count_slashes (l : list ascii) : nat :=
  match l with
  | c :: r => if Ascii.eqb c Os.slash then S (count_slashes r) else O
  | [] => O
  end.

(** A file system that differs from another at most by directories where
    there was nothing. *)
Definition grown (fs fs' : Os.FS) : Prop :=
  Os.cwd fs' = Os.cwd fs
  /\ forall c, Os.node_at fs' c = Os.node_at fs c
               \/ (Os.node_at fs c = None /\ Os.node_at fs' c = Some Os.Dir).

(** A computation that leaves one aspect of the world as it found it. *)
Definition keeps {X A} (aspect : World -> X) (m : M A) : Prop :=
  forall w, aspect (fst (m w)) = aspect w.

(** The lines [download] can print for a file. *)
Definition download_report (output_directory file_name : string) (line : echo_line)
  : Prop :=
  line = mkEcho (style (downloaded_message file_name output_directory) green) false
  \/ line = mkEcho (style (not_written_message file_name) red) true
  \/ exists e, line = mkEcho (style (not_downloaded_message file_name e) red) true.

(** The lines [upload] can print for a file. *)
Definition upload_report (filename : string) (lines : list echo_line) : Prop :=
  (exists response,
     lines = map (fun file_ => mkEcho (style (uploaded_message file_) green) false)
                 response)
  \/ lines = [mkEcho (style (upload_failed_message filename) red) true]
  \/ exists e, lines = [mkEcho (style (upload_error_message filename e) red) true].

(** ** Fixtures for the worked instances *)

Module Demo.

Definition a_txt : Client.record :=
  [("name", VStr "a.txt"); ("size", VInt 10); ("last-modified", VStr "t1")].

(** A client whose server knows one workflow and is unreachable for the
    file [offline.bin]. *)
Definition client : Client.t :=
  Client.mk
    (fun _ workflow _ =>
       if String.eqb workflow "gone"
       then Raised (mkExn Exception "workflow gone does not exist")
       else Ok [a_txt])
    (fun _ _ f _ =>
       if String.eqb f "offline.bin"
       then Raised (mkExn ConnectionError "Connection refused")
       else if String.eqb f "missing.txt"
       then Raised (mkExn Exception "missing.txt does not exist")
       else Ok [Byte.x68; Byte.x69])
    (fun _ _ f _ =>
       if String.eqb f "/data/broken"
       then Raised (mkExn FileUploadError "broken pipe")
       else if String.eqb f "/data/odd"
       then Raised (mkExn Exception "odd")
       else Ok [f]).

Fixpoint column (name : string) (hs row : list string) : list string :=
  match hs, row with
  | h :: hs', x :: row' => if String.eqb h name then [x] else column name hs' row'
  | _, _ => []
  end.

(** Stand-ins for the imported table helpers: the columns of a dataset
    selected by name, a dataset exported as comma-separated values, and a
    table printed as its rows. *)
Definition env : Env :=
  mkEnv client
        "Please provide your access token"
        (fun e => "Traceback (most recent call last): " +:+ exn_str e)
        (fun d cols =>
           Ok (match ds_rows d with
               | [] => None
               | rows =>
                   Some (mkDataset
                           (flat_map (fun c => column c (ds_headers d) (ds_headers d)) cols)
                           (map (fun row =>
                                   flat_map (fun c => column c (ds_headers d) row) cols)
                                rows))
               end))
        (fun d _ => Ok (join_with "," (ds_headers d ++ concat (ds_rows d))))
        (fun h _ rows => (join_with " " h :: map (join_with " ") rows, None)).

(** The directories [/home], the working directory, and [/tmp/x]. *)
Definition fs : Os.FS :=
  Os.mkFS ["home"]
          (<[ ["tmp"; "x"] := Os.Dir ]>
             (<[ ["tmp"] := Os.Dir ]> (<[ ["home"] := Os.Dir ]> ∅))).

Definition world : World := mkWorld [] [] [] fs.

(** [fs] after [makedirs /tmp/x/out], and after the write of
    [/tmp/x/out/result.txt]. *)
Definition fs_out : Os.FS :=
  Os.mkFS ["home"] (<[ ["tmp"; "x"; "out"] := Os.Dir ]> (Os.tree fs)).

Definition fs_result : Os.FS :=
  Os.mkFS ["home"] (<[ ["tmp"; "x"; "out"; "result.txt"] := Os.File [Byte.x68; Byte.x69] ]>
                      (Os.tree fs_out)).

Definition ctx (name : string) (token : option string) : Context :=
  mkContext name ("reana-client files " +:+ name)
            [("workflow", VStr "wf"); ("access_token", of_opt token)].

End Demo.

(** Further fixtures: a listing with a record that lacks its size, and a
    table library that selects no columns of an empty dataset. *)
Module Cases.

Definition no_size : Client.record :=
  [("name", VStr "b.txt"); ("last-modified", VStr "t2")].

Definition client : Client.t :=
  Client.mk
    (fun _ workflow _ =>
       if String.eqb workflow "empty" then Ok [] else Ok [Demo.a_txt; no_size])
    (Client.on_download_file Demo.client)
    (fun _ _ f _ =>
       if String.eqb f "/data/dir" then Ok ["dir/one"; "dir/two"]
       else Client.on_upload_to_server Demo.client [] EmptyString f EmptyString).

Definition env : Env :=
  mkEnv client
        (missing_access_token Demo.env)
        (format_exc Demo.env)
        (tablib_subset Demo.env)
        (tablib_export Demo.env)
        (click_table_printer Demo.env).

(** The same, with a server that cannot be reached at all. *)
Definition offline : Env :=
  mkEnv (Client.mk
           (fun _ _ _ => Raised (mkExn ConnectionError "Connection refused"))
           (fun _ _ _ _ => Raised (mkExn ConnectionError "Connection refused"))
           (fun _ _ _ _ => Raised (mkExn ConnectionError "Connection refused")))
        (missing_access_token Demo.env)
        (format_exc Demo.env)
        (tablib_subset Demo.env)
        (tablib_export Demo.env)
        (click_table_printer Demo.env).

(** A server that checks the token: it knows two tokens, answers both as
    the server of [Demo] does, and refuses every other token. *)
Definition accepts (access_token : string) : bool :=
  String.eqb access_token "s3cr3t" || String.eqb access_token "0th3r".

Definition unauthorized : exn := mkExn Exception "401 Unauthorized".

Definition guarded : Env :=
  mkEnv (Client.mk
           (fun hist workflow access_token =>
              if accepts access_token
              then Client.on_get_files Demo.client hist workflow access_token
              else Raised unauthorized)
           (fun hist workflow file_name access_token =>
              if accepts access_token
              then Client.on_download_file Demo.client hist workflow file_name
                     access_token
              else Raised unauthorized)
           (fun hist workflow filename access_token =>
              if accepts access_token
              then Client.on_upload_to_server Demo.client hist workflow filename
                     access_token
              else Raised unauthorized))
        (missing_access_token Demo.env)
        (format_exc Demo.env)
        (tablib_subset Demo.env)
        (tablib_export Demo.env)
        (click_table_printer Demo.env).

(** [Demo.fs] with a regular file [/tmp/x/f]. *)
Definition fs_f : Os.FS :=
  Os.mkFS ["home"] (<[ ["tmp"; "x"; "f"] := Os.File [Byte.x6f; Byte.x6c; Byte.x64] ]>
                      (Os.tree Demo.fs)).

End Cases.

(** * Properties *)

(** ** Running the monad *)

Lemma log_more_nil w : log_more [] w = w.
Proof. destruct w; unfold log_more; simpl. by rewrite app_nil_r. Qed.

Lemma log_more_app l1 l2 w : log_more l2 (log_more l1 w) = log_more (l1 ++ l2) w.
Proof. unfold log_more; simpl. by rewrite app_assoc. Qed.

Lemma logging_run l msg w : logging l msg w = (log_more [(l, msg)] w, Return tt).
Proof. reflexivity. Qed.

Lemma echo_run text err w : echo text err w = (echo_more [mkEcho text err] w, Return tt).
Proof. reflexivity. Qed.

Lemma bind_run {A B} (m : M A) (k : A -> M B) w w' a :
  m w = (w', Return a) -> (x <- m ;; k x) w = k a w'.
Proof. intros H. unfold bind. by rewrite H. Qed.

Lemma bind_raise {A B} (m : M A) (k : A -> M B) w w' e :
  m w = (w', Raise e) -> (x <- m ;; k x) w = (w', Raise e).
Proof. intros H. unfold bind. by rewrite H. Qed.

Lemma bind_exit {A B} (m : M A) (k : A -> M B) w w' c :
  m w = (w', Exit c) -> (x <- m ;; k x) w = (w', Exit c).
Proof. intros H. unfold bind. by rewrite H. Qed.

Lemma for_logging {A} (f : A -> string) (l : list A) (w : World) :
  for_ l (fun x => logging_debug (f x)) w
  = (log_more (map (fun x => (DEBUG, f x)) l) w, Return tt).
Proof.
  revert w. induction l as [|x l IH]; intros w; simpl.
  - by rewrite log_more_nil.
  - erewrite bind_run by apply logging_run.
    rewrite IH, log_more_app. reflexivity.
Qed.

Lemma log_invocation_run ctx w :
  log_invocation ctx w = (log_more (invocation_log ctx) w, Return tt).
Proof.
  unfold log_invocation.
  erewrite bind_run by apply logging_run.
  rewrite for_logging, log_more_app. reflexivity.
Qed.

Lemma require_access_token_absent env tok w :
  truthy tok = false ->
  require_access_token env tok w
  = (echo_more [mkEcho (style (missing_access_token env) red) true] w, Exit 1).
Proof. intros H. unfold require_access_token. rewrite H. reflexivity. Qed.

Lemma require_access_token_present env tok w :
  truthy tok = true -> require_access_token env tok w = (w, Return tt).
Proof. intros H. unfold require_access_token. rewrite H. reflexivity. Qed.

(** The world after the two checks that open every command passed. *)
Lemma prologue_run env ctx tok {A} (k : M A) w :
  truthy tok = true ->
  (log_invocation ctx ;; require_access_token env tok ;; k) w
  = k (log_more (invocation_log ctx) w).
Proof.
  intros H. erewrite bind_run by apply log_invocation_run.
  erewrite bind_run by (by apply require_access_token_present).
  reflexivity.
Qed.

Lemma prologue_exit env ctx tok {A} (k : M A) w :
  truthy tok = false ->
  (log_invocation ctx ;; require_access_token env tok ;; k) w
  = (echo_more [mkEcho (style (missing_access_token env) red) true]
               (log_more (invocation_log ctx) w), Exit 1).
Proof.
  intros H. erewrite bind_run by apply log_invocation_run.
  erewrite bind_exit by (by apply require_access_token_absent).
  reflexivity.
Qed.



(** ** The guards of the commands *)

(** C1: a command invoked without an access token ([None], or the empty
    string) prints the missing-token message to the error stream and exits
    with status 1; it has called no method of the client.  The three
    commands end in the same world. *)
Theorem missing_token_exits_with_1
    env ctx workflow _filter output_format file_ output_directory filenames
    access_token w :
  truthy access_token = false ->
  let w' := echo_more [mkEcho (style (missing_access_token env) red) true]
                      (log_more (invocation_log ctx) w) in
  get_files env ctx workflow _filter output_format access_token w = (w', Exit 1)
  /\ download_files env ctx workflow file_ output_directory access_token w = (w', Exit 1)
  /\ upload_files env ctx workflow filenames access_token w = (w', Exit 1)
  /\ calls w' = calls w
  /\ exit_code (@Exit unit 1) = Some 1.
Proof.
  intros H w'. repeat split.
  - unfold get_files. by apply prologue_exit.
  - unfold download_files. by apply prologue_exit.
  - unfold upload_files. by apply prologue_exit.
Qed.

Lemma missing_token_exits_with_1_witness :
  get_files Demo.env (Demo.ctx "list" None) (Some "wf") [] None None Demo.world
  = (mkWorld [(DEBUG, "command: reana-client.files.list");
              (DEBUG, "workflow: wf"); (DEBUG, "access_token: None")]
             [mkEcho (style "Please provide your access token" red) true]
             [] Demo.fs, Exit 1).
Proof.
  exact (proj1 (missing_token_exits_with_1 Demo.env (Demo.ctx "list" None)
                  (Some "wf") [] None [] "/tmp/x" [] None Demo.world eq_refl)).
Defined.

(** C3: with an access token but without a workflow reference, a command
    prints the missing-workflow message to the error stream, calls no
    method of the client and returns, so that the process ends with
    status 0 where a missing token ends it with status 1. *)
Theorem missing_workflow_is_reported
    env ctx workflow _filter output_format file_ output_directory filenames
    access_token w :
  truthy access_token = true ->
  truthy workflow = false ->
  let w' := echo_more [mkEcho (style missing_workflow_message red) true]
                      (log_more (invocation_log ctx) w) in
  get_files env ctx workflow _filter output_format access_token w = (w', Return tt)
  /\ download_files env ctx workflow file_ output_directory access_token w = (w', Return tt)
  /\ upload_files env ctx workflow filenames access_token w = (w', Return tt)
  /\ calls w' = calls w
  /\ exit_code (Return tt) = Some 0
  /\ exit_code (Return tt) <> exit_code (@Exit unit 1).
Proof.
  intros Ht Hw w'. repeat split; try done.
  - unfold get_files. rewrite prologue_run by done. by rewrite Hw.
  - unfold download_files. rewrite prologue_run by done. by rewrite Hw.
  - unfold upload_files. rewrite prologue_run by done. by rewrite Hw.
Qed.

Lemma missing_workflow_is_reported_witness :
  upload_files Demo.env (Demo.ctx "upload" (Some "tok")) None ["/data/a"]
               (Some "tok") Demo.world
  = (mkWorld [(DEBUG, "command: reana-client.files.upload");
              (DEBUG, "workflow: wf"); (DEBUG, "access_token: tok")]
             [mkEcho (style missing_workflow_message red) true]
             [] Demo.fs, Return tt).
Proof.
  exact (proj1 (proj2 (proj2
           (missing_workflow_is_reported Demo.env (Demo.ctx "upload" (Some "tok"))
              None [] None [] "/tmp/x" ["/data/a"] (Some "tok") Demo.world
              eq_refl eq_refl)))).
Defined.

(** The text of the message, as the commands print it. *)
Example missing_workflow_message_text :
  missing_workflow_message
  = "Workflow name must be provided either with `--workflow` option "
    +:+ "or with REANA_WORKON environment variable".
Proof. reflexivity. Qed.

(** C10: [download] and [upload] invoked with a token and a workflow but
    without any FILE argument call no method of the client, print nothing
    and return (exit status 0); only the invocation is logged. *)
Theorem no_file_arguments_is_a_no_op
    env ctx workflow output_directory access_token w :
  truthy access_token = true ->
  truthy workflow = true ->
  let w' := log_more (invocation_log ctx) w in
  download_files env ctx workflow [] output_directory access_token w = (w', Return tt)
  /\ upload_files env ctx workflow [] access_token w = (w', Return tt)
  /\ calls w' = calls w
  /\ echoed w' = echoed w
  /\ exit_code (Return tt) = Some 0.
Proof.
  intros Ht Hw w'. repeat split.
  - unfold download_files. rewrite prologue_run by done. by rewrite Hw.
  - unfold upload_files. rewrite prologue_run by done. by rewrite Hw.
Qed.

Lemma no_file_arguments_is_a_no_op_witness :
  download_files Demo.env (Demo.ctx "download" (Some "tok")) (Some "wf") []
                 "/tmp/x" (Some "tok") Demo.world
  = (mkWorld [(DEBUG, "command: reana-client.files.download");
              (DEBUG, "workflow: wf"); (DEBUG, "access_token: tok")]
             [] [] Demo.fs, Return tt).
Proof.
  exact (proj1 (no_file_arguments_is_a_no_op Demo.env
                  (Demo.ctx "download" (Some "tok")) (Some "wf") "/tmp/x"
                  (Some "tok") Demo.world eq_refl eq_refl)).
Defined.

(** ** Exceptions stay inside the commands *)

Lemma isinstance_Exception e : isinstance e Exception = true.
Proof. destruct e as [c s]. by destruct c. Qed.

Lemma never_exits_ret {A} (a : A) : never_exits (ret a).
Proof. by intros w w' c. Qed.

Lemma never_exits_raise {A} e : never_exits (@raise A e).
Proof. by intros w w' c. Qed.

Lemma never_exits_bind {A B} (m : M A) (k : A -> M B) :
  never_exits m -> (forall a, never_exits (k a)) -> never_exits (x <- m ;; k x).
Proof.
  intros Hm Hk w w' c. unfold bind.
  destruct (m w) as [w1 [a|e|c1]] eqn:E; [apply Hk | done | by apply Hm in E].
Qed.

Lemma never_exits_for {A} (l : list A) body :
  (forall x, never_exits (body x)) -> never_exits (for_ l body).
Proof.
  intros H. induction l as [|x l IH]; simpl.
  - apply never_exits_ret.
  - by apply never_exits_bind.
Qed.

Lemma never_exits_map_M {A B} (f : A -> M B) l :
  (forall x, never_exits (f x)) -> never_exits (map_M f l).
Proof.
  intros H. induction l as [|x l IH]; simpl.
  - apply never_exits_ret.
  - apply never_exits_bind; [done|]. intros y.
    apply never_exits_bind; [done|]. intros ys. apply never_exits_ret.
Qed.

Lemma never_exits_lift {A} (r : result A) : never_exits (lift_result r).
Proof. destruct r; [apply never_exits_ret | apply never_exits_raise]. Qed.

Lemma never_exits_logging l msg : never_exits (logging l msg).
Proof. by intros w w' c. Qed.

Lemma never_exits_echo text err : never_exits (echo text err).
Proof. by intros w w' c. Qed.

Lemma never_exits_remote {A} c (answer : list Client.call -> result A) :
  never_exits (remote c answer).
Proof. intros w w' c'. unfold remote. by destruct (answer _). Qed.

Lemma never_exits_update op : never_exits (update_files op).
Proof. intros w w' c. unfold update_files. by destruct (op _). Qed.

Lemma never_exits_path_exists p : never_exits (os_path_exists p).
Proof. by intros w w' c. Qed.

Lemma never_exits_makedirs p : never_exits (os_makedirs p).
Proof. intros w w' c. unfold os_makedirs. by destruct (snd _). Qed.

Lemma never_exits_getitem d key : never_exits (getitem d key).
Proof.
  unfold getitem. destruct (dict_get d key);
    [apply never_exits_ret | apply never_exits_raise].
Qed.

Create HintDb exits.

#[local] Hint Resolve never_exits_ret never_exits_raise never_exits_lift
  never_exits_logging never_exits_echo never_exits_remote never_exits_update
  never_exits_path_exists never_exits_makedirs never_exits_getitem : exits.

Ltac no_exit :=
  repeat first
    [ progress eauto with exits
    | apply never_exits_bind; [|intros ?]
    | apply never_exits_for; intros ?
    | apply never_exits_map_M; intros ?
    | match goal with
      | |- never_exits (match ?x with _ => _ end) => destruct x
      | |- never_exits (if ?b then _ else _) => destruct b
      end ].

Lemma never_exits_get_files_try env workflow access_token _filter output_format :
  never_exits (get_files_try env workflow access_token _filter output_format).
Proof.
  unfold get_files_try, client_get_files, project. no_exit.
Qed.

Lemma never_exits_download_try env workflow output_directory access_token file_name :
  never_exits (download_try env workflow output_directory access_token file_name).
Proof.
  unfold download_try, client_download_file, open_wb_write. no_exit.
Qed.

Lemma returns_bind (m k : M unit) : returns m -> returns k -> returns (m ;; k).
Proof.
  intros Hm Hk w. destruct (Hm w) as [w1 E1]. destruct (Hk w1) as [w2 E2].
  exists w2. by erewrite bind_run.
Qed.

Lemma returns_logging l msg : returns (logging l msg).
Proof. intros w. by eexists. Qed.

Lemma returns_echo text err : returns (echo text err).
Proof. intros w. by eexists. Qed.

Lemma returns_for {A} (l : list A) body :
  (forall x, returns (body x)) -> returns (for_ l body).
Proof.
  intros H. induction l as [|x l IH]; simpl.
  - intros w. by eexists.
  - by apply returns_bind.
Qed.

(** A [try] whose body cannot exit, with a clause for [Exception] and
    clauses that all return, returns. *)
Lemma try_except_returns body handlers :
  never_exits body ->
  Forall (fun h => forall e, returns (snd h e)) handlers ->
  Exists (fun h => fst h = Exception) handlers ->
  returns (try_except body handlers).
Proof.
  intros Hb Hh Hex w. unfold try_except.
  destruct (body w) as [w1 [[]|e|c]] eqn:E.
  - by eexists.
  - destruct (find _ handlers) as [h|] eqn:F.
    + apply find_some in F as [Hin _]. apply list_elem_of_In in Hin.
      rewrite Forall_forall in Hh. apply (Hh h Hin e w1).
    + exfalso. apply Exists_exists in Hex as [h [Hin Hc]].
      apply list_elem_of_In in Hin.
      eapply find_none in F; [|exact Hin]. simpl in F.
      by rewrite Hc, isinstance_Exception in F.
  - by apply Hb in E.
Qed.

Lemma handler_returns env (text : exn -> string) e :
  returns (logging_debug (format_exc env e) ;;
           logging_debug (exn_str e) ;;
           echo (text e) true).
Proof.
  apply returns_bind; [apply returns_logging|].
  apply returns_bind; [apply returns_logging | apply returns_echo].
Qed.

Lemma download_one_returns env workflow output_directory access_token file_name :
  returns (download_one env workflow output_directory access_token file_name).
Proof.
  apply try_except_returns.
  - apply never_exits_download_try.
  - repeat constructor; intros e; simpl;
      apply (handler_returns env (fun e => style _ red)).
  - right. by left.
Qed.

Lemma upload_one_returns env workflow access_token filename :
  returns (upload_one env workflow access_token filename).
Proof.
  apply try_except_returns.
  - unfold client_upload_to_server. no_exit.
  - repeat constructor; intros e; simpl;
      apply (handler_returns env (fun e => style _ red)).
  - right. by left.
Qed.

Lemma get_files_try_caught env workflow access_token _filter output_format :
  returns (try_except
    (get_files_try env workflow access_token _filter output_format)
    [(Exception, fun e =>
        logging_debug (format_exc env e) ;;
        logging_debug (exn_str e) ;;
        echo (style (get_files_failed workflow e) red) true)]).
Proof.
  apply try_except_returns.
  - apply never_exits_get_files_try.
  - repeat constructor; intros e; simpl.
    apply (handler_returns env (fun e => style (get_files_failed workflow e) red)).
  - by left.
Qed.

Lemma handler_run env text e w :
  (logging_debug (format_exc env e) ;; logging_debug (exn_str e) ;; echo text true) w
  = (echo_more [mkEcho text true]
       (log_more [(DEBUG, format_exc env e); (DEBUG, exn_str e)] w), Return tt).
Proof.
  unfold logging_debug.
  erewrite bind_run by apply logging_run.
  erewrite bind_run by apply logging_run.
  by rewrite log_more_app, echo_run.
Qed.

Lemma try_except_return {A} (body : M A) handlers w w1 a :
  body w = (w1, Return a) -> try_except body handlers w = (w1, Return a).
Proof. intros H. unfold try_except. by rewrite H. Qed.

Lemma try_except_first {A} (body : M A) c h handlers w w1 e :
  body w = (w1, Raise e) ->
  isinstance e c = true ->
  try_except body ((c, h) :: handlers) w = h e w1.
Proof. intros H Hc. unfold try_except. rewrite H. simpl. by rewrite Hc. Qed.

Lemma try_except_second {A} (body : M A) c1 h1 c2 h2 handlers w w1 e :
  body w = (w1, Raise e) ->
  isinstance e c1 = false ->
  isinstance e c2 = true ->
  try_except body ((c1, h1) :: (c2, h2) :: handlers) w = h2 e w1.
Proof.
  intros H Hc1 Hc2. unfold try_except. rewrite H. simpl. by rewrite Hc1, Hc2.
Qed.

Lemma remote_ok {A} c (answer : list Client.call -> result A) w a :
  answer (calls w) = Ok a -> remote c answer w = (call_more [c] w, Return a).
Proof. intros H. unfold remote. by rewrite H. Qed.

Lemma remote_raised {A} c (answer : list Client.call -> result A) w e :
  answer (calls w) = Raised e -> remote c answer w = (call_more [c] w, Raise e).
Proof. intros H. unfold remote. by rewrite H. Qed.

Lemma client_get_files_failure env workflow access_token w e :
  Client.on_get_files (client env) (calls w) workflow access_token = Raised e ->
  client_get_files env workflow access_token w
  = (call_more [Client.get_files workflow access_token] w, Raise e).
Proof.
  intros H. by apply remote_raised.
Qed.

Lemma get_files_present env ctx workflow _filter output_format access_token w :
  truthy access_token = true ->
  truthy workflow = true ->
  get_files env ctx workflow _filter output_format access_token w
  = try_except
      (get_files_try env (the workflow) (the access_token) _filter output_format)
      [(Exception, fun e =>
          logging_debug (format_exc env e) ;;
          logging_debug (exn_str e) ;;
          echo (style (get_files_failed (the workflow) e) red) true)]
      (log_more (invocation_log ctx ++ [(INFO, workflow_selected (the workflow))]) w).
Proof.
  intros Ht Hw. unfold get_files. rewrite prologue_run by done. rewrite Hw.
  unfold logging_info. erewrite bind_run by apply logging_run.
  by rewrite log_more_app.
Qed.

Lemma command_outcome (body_ok : M unit) env ctx workflow access_token w :
  returns body_ok ->
  snd ((log_invocation ctx ;; require_access_token env access_token ;;
        if truthy workflow then body_ok
        else echo (style missing_workflow_message red) true) w)
  = if truthy access_token then Return tt else Exit 1.
Proof.
  intros H. destruct (truthy access_token) eqn:Ht.
  - rewrite prologue_run by done. destruct (truthy workflow).
    + by destruct (H (log_more (invocation_log ctx) w)) as [w' ->].
    + done.
  - by rewrite prologue_exit.
Qed.

(** The text of the failure message of [list]. *)
Lemma get_files_failed_text workflow e :
  get_files_failed workflow e
  = "Something went wrong while retrieving file list for workflow "
    +:+ workflow +:+ ":" +:+ String (ascii_of_N 10) (exn_str e).
Proof. reflexivity. Qed.

(** C7: in [list], an exception raised by the remote call or while the
    output is produced is caught and reported on the error stream in red,
    by the message [Something went wrong while retrieving file list for
    workflow W:] followed, on a new line, by the text of the exception; and
    no command lets an exception out: each returns, except for the exit
    with status 1 when the token is missing. *)
Theorem errors_stay_inside_the_commands
    env ctx workflow _filter output_format file_ output_directory filenames
    access_token w :
  let started :=
    log_more (invocation_log ctx ++ [(INFO, workflow_selected (the workflow))]) w in
  let reported e w1 :=
    echo_more
      [mkEcho (style ("Something went wrong while retrieving file list for workflow "
                      +:+ the workflow +:+ ":"
                      +:+ String (ascii_of_N 10) (exn_str e)) red) true]
      (log_more [(DEBUG, format_exc env e); (DEBUG, exn_str e)] w1) in
  (forall e,
     truthy access_token = true -> truthy workflow = true ->
     Client.on_get_files (client env) (calls w) (the workflow) (the access_token)
       = Raised e ->
     get_files env ctx workflow _filter output_format access_token w
     = (reported e (call_more [Client.get_files (the workflow) (the access_token)]
                              started), Return tt))
  /\ (forall e w1,
     truthy access_token = true -> truthy workflow = true ->
     get_files_try env (the workflow) (the access_token) _filter output_format started
       = (w1, Raise e) ->
     get_files env ctx workflow _filter output_format access_token w
     = (reported e w1, Return tt))
  /\ snd (get_files env ctx workflow _filter output_format access_token w)
     = (if truthy access_token then Return tt else Exit 1)
  /\ snd (download_files env ctx workflow file_ output_directory access_token w)
     = (if truthy access_token then Return tt else Exit 1)
  /\ snd (upload_files env ctx workflow filenames access_token w)
     = (if truthy access_token then Return tt else Exit 1).
Proof.
  intros started reported.
  assert (Hany : forall e w1,
     truthy access_token = true -> truthy workflow = true ->
     get_files_try env (the workflow) (the access_token) _filter output_format started
       = (w1, Raise e) ->
     get_files env ctx workflow _filter output_format access_token w
     = (reported e w1, Return tt)).
  { intros e w1 Ht Hw Hr. rewrite get_files_present by done.
    erewrite try_except_first; [|exact Hr|apply isinstance_Exception].
    unfold reported. rewrite <- get_files_failed_text. apply handler_run. }
  split; [|split; [exact Hany|]].
  - intros e Ht Hw Hc. apply Hany; try done.
    unfold get_files_try. eapply bind_raise.
    by apply client_get_files_failure.
  - repeat split.
    + unfold get_files. apply command_outcome.
      apply returns_bind; [apply returns_logging | apply get_files_try_caught].
    + unfold download_files. apply command_outcome.
      apply returns_for. intros x. apply download_one_returns.
    + unfold upload_files. apply command_outcome.
      apply returns_for. intros x. apply upload_one_returns.
Qed.

Lemma errors_stay_inside_the_commands_witness :
  get_files Demo.env (Demo.ctx "list" (Some "tok")) (Some "gone") [] None
            (Some "tok") Demo.world
  = (mkWorld [(DEBUG, "command: reana-client.files.list");
              (DEBUG, "workflow: wf"); (DEBUG, "access_token: tok");
              (INFO, workflow_selected "gone");
              (DEBUG, "Traceback (most recent call last): workflow gone does not exist");
              (DEBUG, "workflow gone does not exist")]
       [mkEcho (style ("Something went wrong while retrieving file list for workflow gone:"
                       +:+ String (ascii_of_N 10) "workflow gone does not exist")
                      red) true]
       [Client.get_files "gone" "tok"] Demo.fs, Return tt).
Proof.
  exact (proj1 (errors_stay_inside_the_commands Demo.env
                  (Demo.ctx "list" (Some "tok")) (Some "gone") [] None [] "/tmp/x" []
                  (Some "tok") Demo.world)
           (mkExn Exception "workflow gone does not exist") eq_refl eq_refl eq_refl).
Defined.

(** ** Loops over the file arguments *)

Lemma for_app {A} (l1 l2 : list A) body w :
  (forall x, returns (body x)) ->
  for_ (l1 ++ l2) body w = for_ l2 body (fst (for_ l1 body w)).
Proof.
  intros H. revert w. induction l1 as [|x l1 IH]; intros w; simpl; [done|].
  destruct (H x w) as [w1 E].
  erewrite !bind_run by exact E. apply IH.
Qed.

Lemma for_cons {A} (x : A) l body w :
  (forall x, returns (body x)) ->
  for_ (x :: l) body w = for_ l body (fst (body x w)).
Proof.
  intros H. simpl. destruct (H x w) as [w1 E].
  erewrite bind_run by exact E. by rewrite E.
Qed.

Lemma for_echo {A} (f : A -> string) (l : list A) w :
  for_ l (fun x => echo (f x) false) w
  = (echo_more (map (fun x => mkEcho (f x) false) l) w, Return tt).
Proof.
  revert w. induction l as [|x l IH]; intros w; simpl.
  - destruct w. unfold echo_more, ret. simpl. by rewrite app_nil_r.
  - erewrite bind_run by apply echo_run. rewrite IH.
    unfold echo_more. simpl. by rewrite <- app_assoc.
Qed.

(** ** Upload *)

Lemma client_upload_failure env workflow filename access_token w e :
  Client.on_upload_to_server (client env) (calls w) workflow filename access_token
    = Raised e ->
  client_upload_to_server env workflow filename access_token w
  = (call_more [Client.upload_to_server workflow filename access_token] w, Raise e).
Proof.
  intros H. by apply remote_raised.
Qed.

Lemma upload_one_uploaded env workflow access_token filename w l :
  Client.on_upload_to_server (client env) (calls w) workflow filename access_token
    = Ok l ->
  upload_one env workflow access_token filename w
  = (echo_more (map (fun file_ => mkEcho (style (uploaded_message file_) green) false) l)
       (call_more [Client.upload_to_server workflow filename access_token] w),
     Return tt).
Proof.
  intros H. unfold upload_one. apply try_except_return.
  erewrite bind_run; [apply for_echo|]. by apply remote_ok.
Qed.

Lemma upload_one_raised env workflow access_token filename w e :
  client_upload_to_server env workflow filename access_token w
  = (call_more [Client.upload_to_server workflow filename access_token] w, Raise e) ->
  upload_one env workflow access_token filename w
  = (echo_more
       [mkEcho (style (if isinstance e FileUploadError
                       then upload_error_message filename e
                       else upload_failed_message filename) red) true]
       (log_more [(DEBUG, format_exc env e); (DEBUG, exn_str e)]
          (call_more [Client.upload_to_server workflow filename access_token] w)),
     Return tt).
Proof.
  intros H. unfold upload_one.
  destruct (isinstance e FileUploadError) eqn:Hc.
  - erewrite try_except_first; [apply handler_run| |exact Hc].
    by erewrite bind_raise.
  - erewrite try_except_second;
      [apply handler_run| |exact Hc|apply isinstance_Exception].
    by erewrite bind_raise.
Qed.

Lemma upload_one_calls env workflow access_token filename w :
  calls (fst (upload_one env workflow access_token filename w))
  = (calls w ++ [Client.upload_to_server workflow filename access_token])%list.
Proof.
  destruct (Client.on_upload_to_server (client env) (calls w) workflow filename
              access_token) as [l|e] eqn:E.
  - by erewrite upload_one_uploaded.
  - erewrite upload_one_raised; [done|]. by apply client_upload_failure.
Qed.

Lemma upload_loop_calls env workflow access_token filenames w :
  calls (fst (for_ filenames (upload_one env workflow access_token) w))
  = (calls w
     ++ map (fun f => Client.upload_to_server workflow f access_token) filenames)%list.
Proof.
  revert w. induction filenames as [|f l IH]; intros w.
  - simpl. by rewrite app_nil_r.
  - rewrite for_cons by (intros; apply upload_one_returns).
    rewrite IH, upload_one_calls. simpl. by rewrite <- app_assoc.
Qed.

(** The texts of the failure messages of [upload]. *)
Lemma upload_error_message_text filename e :
  upload_error_message filename e
  = "Something went wrong while uploading " +:+ filename +:+ "."
    +:+ String (ascii_of_N 10) (exn_str e).
Proof. reflexivity. Qed.

Lemma upload_failed_message_text filename :
  upload_failed_message filename = "Something went wrong while uploading " +:+ filename.
Proof. reflexivity. Qed.

(** C5: [upload] treats its files one by one.  A [FileUploadError] raised
    for a file is caught and reported by [Something went wrong while
    uploading F.] followed, on a new line, by the text of the exception;
    any other exception is caught and reported by [Something went wrong
    while uploading F], which names the file only; and whatever happened to
    one file, the loop goes on with the next, so that the client is called
    once for every file, in order. *)
Theorem upload_reports_each_file_and_goes_on
    env ctx workflow filenames access_token w :
  truthy access_token = true ->
  truthy workflow = true ->
  let one := upload_one env (the workflow) (the access_token) in
  let attempt f := Client.upload_to_server (the workflow) f (the access_token) in
  let failed f e text w1 :=
    echo_more [mkEcho (style text red) true]
      (log_more [(DEBUG, format_exc env e); (DEBUG, exn_str e)]
         (call_more [attempt f] w1)) in
  (forall f w1 e,
     Client.on_upload_to_server (client env) (calls w1)
       (the workflow) f (the access_token) = Raised e ->
     isinstance e FileUploadError = true ->
     one f w1
     = (failed f e ("Something went wrong while uploading " +:+ f +:+ "."
                    +:+ String (ascii_of_N 10) (exn_str e)) w1, Return tt))
  /\ (forall f w1 e,
     Client.on_upload_to_server (client env) (calls w1)
       (the workflow) f (the access_token) = Raised e ->
     isinstance e FileUploadError = false ->
     one f w1
     = (failed f e ("Something went wrong while uploading " +:+ f) w1, Return tt))
  /\ (forall before f after,
     filenames = (before ++ f :: after)%list ->
     upload_files env ctx workflow filenames access_token w
     = for_ after one
         (fst (one f (fst (for_ before one (log_more (invocation_log ctx) w))))))
  /\ calls (fst (upload_files env ctx workflow filenames access_token w))
     = (calls w ++ map attempt filenames)%list
  /\ snd (upload_files env ctx workflow filenames access_token w) = Return tt.
Proof.
  intros Ht Hw one attempt failed.
  assert (Hrun : upload_files env ctx workflow filenames access_token w
                 = for_ filenames one (log_more (invocation_log ctx) w)).
  { unfold upload_files. rewrite prologue_run by done. by rewrite Hw. }
  assert (Hret : forall x, returns (one x)) by (intros; apply upload_one_returns).
  repeat split.
  - intros f w1 e Hc Hi. unfold one.
    erewrite upload_one_raised by (by apply client_upload_failure).
    by rewrite Hi, upload_error_message_text.
  - intros f w1 e Hc Hi. unfold one.
    erewrite upload_one_raised by (by apply client_upload_failure).
    by rewrite Hi, upload_failed_message_text.
  - intros before f after ->. rewrite Hrun.
    rewrite for_app by done. by rewrite for_cons.
  - rewrite Hrun. unfold one. by rewrite upload_loop_calls.
  - rewrite Hrun. by destruct (returns_for filenames one Hret
                                 (log_more (invocation_log ctx) w)) as [w' ->].
Qed.

Lemma upload_reports_each_file_and_goes_on_witness :
  upload_one Demo.env "wf" "tok" "/data/broken" Demo.world
  = (mkWorld [(DEBUG, "Traceback (most recent call last): broken pipe");
              (DEBUG, "broken pipe")]
             [mkEcho (style ("Something went wrong while uploading /data/broken."
                             +:+ String (ascii_of_N 10) "broken pipe") red) true]
             [Client.upload_to_server "wf" "/data/broken" "tok"] Demo.fs,
     Return tt)
  /\ upload_one Demo.env "wf" "tok" "/data/odd" Demo.world
  = (mkWorld [(DEBUG, "Traceback (most recent call last): odd"); (DEBUG, "odd")]
             [mkEcho (style "Something went wrong while uploading /data/odd" red) true]
             [Client.upload_to_server "wf" "/data/odd" "tok"] Demo.fs,
     Return tt)
  /\ calls (fst (upload_files Demo.env (Demo.ctx "upload" (Some "tok")) (Some "wf")
                   ["/data/broken"; "/data/odd"; "/data/a"] (Some "tok") Demo.world))
  = [Client.upload_to_server "wf" "/data/broken" "tok";
     Client.upload_to_server "wf" "/data/odd" "tok";
     Client.upload_to_server "wf" "/data/a" "tok"].
Proof.
  destruct (upload_reports_each_file_and_goes_on Demo.env
              (Demo.ctx "upload" (Some "tok")) (Some "wf")
              ["/data/broken"; "/data/odd"; "/data/a"] (Some "tok") Demo.world
              eq_refl eq_refl) as (Herror & Hother & _ & Hcalls & _).
  split; [|split].
  - exact (Herror "/data/broken" Demo.world (mkExn FileUploadError "broken pipe")
             eq_refl eq_refl).
  - exact (Hother "/data/odd" Demo.world (mkExn Exception "odd") eq_refl eq_refl).
  - exact Hcalls.
Defined.

(** The messages of that run: the first failure carries its text, the
    second does not, and the third file is uploaded all the same. *)
Example upload_three_files :
  echoed (fst (upload_files Demo.env (Demo.ctx "upload" (Some "tok")) (Some "wf")
                 ["/data/broken"; "/data/odd"; "/data/a"] (Some "tok") Demo.world))
  = [mkEcho (style ("Something went wrong while uploading /data/broken."
                    +:+ String (ascii_of_N 10) "broken pipe") red) true;
     mkEcho (style "Something went wrong while uploading /data/odd" red) true;
     mkEcho (style "File /data/a was successfully uploaded." green) false].
Proof. reflexivity. Qed.


(** ** The file system *)

Lemma resolve_same_cwd fs t p :
  Os.resolve (Os.mkFS (Os.cwd fs) t) p = Os.resolve fs p.
Proof. reflexivity. Qed.

Lemma descend_fold fs p cur comps c :
  Os.descend fs p cur comps = Ok c -> c = fold_left Os.walk comps cur.
Proof.
  revert cur. induction comps as [|x comps IH]; intros cur; simpl.
  - by intros [= <-].
  - destruct (Os.node_at fs cur) as [[|?]|]; [apply IH|done..].
Qed.

Lemma descend_any_text fs p q cur comps c :
  Os.descend fs p cur comps = Ok c -> Os.descend fs q cur comps = Ok c.
Proof.
  revert cur. induction comps as [|x comps IH]; intros cur; simpl; [done|].
  destruct (Os.node_at fs cur) as [[|?]|]; [apply IH|done..].
Qed.

Lemma descend_more_dirs fs fs' p cur comps c :
  (forall x, Os.node_at fs x = Some Os.Dir -> Os.node_at fs' x = Some Os.Dir) ->
  Os.descend fs p cur comps = Ok c -> Os.descend fs' p cur comps = Ok c.
Proof.
  intros H. revert cur. induction comps as [|x comps IH]; intros cur; simpl; [done|].
  destruct (Os.node_at fs cur) as [[|?]|] eqn:E; [|done..].
  rewrite (H _ E). apply IH.
Qed.

Lemma descend_app fs p cur A B :
  Os.descend fs p cur (A ++ B)
  = match Os.descend fs p cur A with
    | Ok c => Os.descend fs p c B
    | Raised e => Raised e
    end.
Proof.
  revert cur. induction A as [|x A IH]; intros cur; simpl; [done|].
  destruct (Os.node_at fs cur) as [[|?]|]; [apply IH|done..].
Qed.

Lemma descend_from_dir fs p cur x rest c :
  Os.descend fs p cur (x :: rest) = Ok c -> Os.node_at fs cur = Some Os.Dir.
Proof. simpl. by destruct (Os.node_at fs cur) as [[|?]|]. Qed.

Lemma lookup_resolve fs p c : Os.lookup fs p = Ok c -> Os.resolve fs p = Some c.
Proof.
  unfold Os.lookup, Os.resolve, Os.start_of. destruct p as [|a p]; [done|].
  intros H. apply descend_fold in H. by rewrite H.
Qed.

(** *** Paths as text *)

Lemma string_of_list_app l1 l2 :
  string_of_list_ascii (l1 ++ l2)
  = string_of_list_ascii l1 +:+ string_of_list_ascii l2.
Proof. induction l1 as [|a l1 IH]; simpl; [done|]. by rewrite IH. Qed.

Lemma split_slash_app cur x y :
  Os.split_slash cur (x +:+ String Os.slash y)
  = (Os.split_slash cur x ++ Os.split_slash EmptyString y)%list.
Proof.
  revert cur. induction x as [|a x IH]; intros cur; simpl.
  - reflexivity.
  - destruct (Ascii.eqb a Os.slash); simpl; by rewrite IH.
Qed.

Lemma split_slash_not_nil cur s : Os.split_slash cur s <> [].
Proof.
  revert cur. induction s as [|a s IH]; intros cur; simpl; [done|].
  destruct (Ascii.eqb a Os.slash); [done|apply IH].
Qed.

(** A reversed path falls into the reversed base name and the rest. *)
Lemma take_drop_tail l : (Os.take_tail l ++ Os.drop_tail l)%list = l.
Proof.
  induction l as [|a l IH]; simpl; [done|].
  destruct (Ascii.eqb a Os.slash); simpl; [done|by rewrite IH].
Qed.

Lemma drop_tail_slash l :
  Os.drop_tail l = [] \/ exists r, Os.drop_tail l = Os.slash :: r.
Proof.
  induction l as [|a l IH]; simpl; [by left|].
  destruct (Ascii.eqb a Os.slash) eqn:E; [|done].
  right. apply Ascii.eqb_eq in E as ->. by eexists.
Qed.

Lemma drop_slashes_split l :
  l = (repeat Os.slash (count_slashes l) ++ Os.drop_slashes l)%list.
Proof.
  induction l as [|a l IH]; simpl; [done|].
  destruct (Ascii.eqb a Os.slash) eqn:E; [|done].
  apply Ascii.eqb_eq in E as ->. simpl. by rewrite <- IH.
Qed.

Lemma rev_repeat {A} (a : A) n : rev (repeat a n) = repeat a n.
Proof.
  induction n as [|n IH]; simpl; [done|].
  rewrite IH. clear IH. induction n as [|n IH]; simpl; [done|]. by rewrite IH.
Qed.

Lemma fold_walk_strip l cur :
  fold_left Os.walk (Os.strip_empty l) cur = fold_left Os.walk l cur.
Proof.
  revert cur. induction l as [|c r IH]; intros cur; [done|]. simpl.
  destruct (Os.strip_empty r) as [|x r'] eqn:E.
  - rewrite <- IH. simpl. destruct (String.eqb c EmptyString) eqn:Ec; [|done].
    apply String.eqb_eq in Ec as ->. done.
  - simpl. by rewrite <- IH.
Qed.

Lemma dirname_cases p :
  Os.path_dirname p = EmptyString
  \/ (exists k, Os.path_dirname p = string_of_list_ascii (repeat Os.slash (S k)))
  \/ (exists rest, p = Os.path_dirname p +:+ String Os.slash rest
                   /\ Os.path_dirname p <> EmptyString).
Proof.
  unfold Os.path_dirname.
  pose proof (take_drop_tail (rev (list_ascii_of_string p))) as Hl.
  destruct (drop_tail_slash (rev (list_ascii_of_string p))) as [->|[h' Hh]];
    [by left|].
  right. rewrite Hh in *.
  change (Os.drop_slashes (Os.slash :: h')) with (Os.drop_slashes h').
  pose proof (drop_slashes_split h') as Hs.
  set (n := count_slashes h') in *.
  destruct (Os.drop_slashes h') as [|a s] eqn:Hd.
  - left. exists n. rewrite app_nil_r in Hs. rewrite Hs.
    change (Os.slash :: repeat Os.slash n) with (repeat Os.slash (S n)).
    by rewrite rev_repeat.
  - right.
    assert (Hp : list_ascii_of_string p
                 = (rev (a :: s)
                    ++ Os.slash :: repeat Os.slash n
                    ++ rev (Os.take_tail (rev (list_ascii_of_string p))))%list).
    { rewrite <- (rev_involutive (list_ascii_of_string p)) at 1.
      rewrite <- Hl at 1. rewrite rev_app_distr. rewrite Hs at 1.
      change (Os.slash :: repeat Os.slash n ++ a :: s)%list
        with (repeat Os.slash (S n) ++ a :: s)%list.
      rewrite rev_app_distr, (rev_repeat Os.slash (S n)). simpl.
      by rewrite <- !app_assoc. }
    eexists. split.
    + rewrite <- (string_of_list_ascii_of_string p) at 1. rewrite Hp.
      rewrite string_of_list_app. reflexivity.
    + intros E. apply (f_equal list_ascii_of_string) in E.
      rewrite list_ascii_of_string_of_list_ascii in E. simpl in E.
      by destruct (rev s).
Qed.

Lemma descend_slashes fs q k :
  Os.descend fs q [] (Os.split_slash EmptyString
                        (string_of_list_ascii (repeat Os.slash k))) = Ok [].
Proof. induction k as [|k IH]; [done|]. exact IH. Qed.

Lemma lookup_slashes fs k :
  Os.lookup fs (string_of_list_ascii (repeat Os.slash (S k))) = Ok [].
Proof. apply (descend_slashes fs _ (S k)). Qed.

(** A path that leads somewhere goes through its [dirname], which is an
    existing directory. *)
Lemma lookup_parent fs p c :
  Os.path_dirname p <> EmptyString ->
  Os.lookup fs p = Ok c ->
  exists cur, Os.lookup fs (Os.path_dirname p) = Ok cur
              /\ Os.node_at fs cur = Some Os.Dir.
Proof.
  intros Hne Hl.
  destruct (dirname_cases p) as [E|[[k E]|(rest & Hp & _)]]; [done| |].
  - exists []. by rewrite E, lookup_slashes.
  - set (d := Os.path_dirname p) in *.
    assert (Hst : Os.start_of fs p = Os.start_of fs d).
    { unfold Os.start_of. rewrite Hp. by destruct d. }
    unfold Os.lookup in Hl. destruct p as [|a p]; [done|].
    rewrite Hst in Hl. rewrite Hp in Hl at 2.
    rewrite split_slash_app, descend_app in Hl.
    destruct (Os.descend fs _ (Os.start_of fs d) (Os.split_slash EmptyString d))
      as [cur|e] eqn:Hd; [|done].
    exists cur. split.
    + unfold Os.lookup. destruct d; [done|]. by apply (descend_any_text _ _ _ _ _ _ Hd).
    + destruct (Os.split_slash EmptyString rest) as [|x B] eqn:HB;
        [by apply split_slash_not_nil in HB|].
      by apply descend_from_dir in Hl.
Qed.

Lemma parent_exists fs p c :
  Os.path_dirname p <> EmptyString ->
  Os.lookup fs p = Ok c ->
  Os.path_exists fs (Os.path_dirname p) = true
  /\ Os.isdir fs (Os.path_dirname p) = true.
Proof.
  intros Hne Hl. destruct (lookup_parent fs p c Hne Hl) as (cur & Hd & Hn).
  unfold Os.path_exists, Os.isdir.
  rewrite Hd, Hn. split; [|done].
  by apply bool_decide_eq_true.
Qed.

(** *** Writing a file *)

(** What a successful write did: the path leads to a position that is no
    directory, and that now holds the bytes. *)
Lemma write_binary_ok fs p b fs2 :
  Os.write_binary fs p b = Ok fs2 ->
  exists c, Os.lookup fs p = Ok c
            /\ Os.resolve fs p = Some c
            /\ c <> []
            /\ Os.node_at fs c <> Some Os.Dir
            /\ Os.names_directory p = false
            /\ fs2 = Os.mkFS (Os.cwd fs) (<[c := Os.File b]> (Os.tree fs)).
Proof.
  unfold Os.write_binary. destruct (Os.lookup fs p) as [c|e] eqn:L; [|done].
  intros H. exists c. split; [done|]. split; [by apply lookup_resolve|].
  assert (Hc : c <> []). { intros ->. by simpl in H. }
  split; [done|].
  destruct (Os.node_at fs c) as [[|old]|] eqn:N; [done| |];
    (destruct (Os.names_directory p); [done|]); by injection H as <-.
Qed.

Lemma write_keeps_dirs fs c b x :
  Os.node_at fs c <> Some Os.Dir ->
  Os.node_at fs x = Some Os.Dir ->
  Os.node_at (Os.mkFS (Os.cwd fs) (<[c := Os.File b]> (Os.tree fs))) x = Some Os.Dir.
Proof.
  intros Hn Hx. destruct x as [|y x]; [done|]. cbn [Os.node_at Os.tree] in *.
  destruct (decide (c = y :: x)) as [->|Hne]; [done|].
  by rewrite lookup_insert_ne.
Qed.

Lemma read_after_write fs p b fs2 :
  Os.write_binary fs p b = Ok fs2 -> Os.read_file fs2 p = Some b.
Proof.
  intros H. apply write_binary_ok in H as (c & _ & R & Hc & _ & _ & ->).
  unfold Os.read_file. rewrite resolve_same_cwd, R.
  destruct c; [done|]. simpl. by rewrite lookup_insert_eq.
Qed.

Lemma lookup_after_write fs p b fs2 q c :
  Os.write_binary fs p b = Ok fs2 -> Os.lookup fs q = Ok c -> Os.lookup fs2 q = Ok c.
Proof.
  intros H. apply write_binary_ok in H as (cp & _ & _ & _ & Hn & _ & ->).
  unfold Os.lookup, Os.start_of. destruct q as [|a q]; [done|].
  apply descend_more_dirs. intros x. by apply write_keeps_dirs.
Qed.

Lemma isdir_after_write fs p b fs2 d :
  Os.write_binary fs p b = Ok fs2 -> Os.isdir fs d = true -> Os.isdir fs2 d = true.
Proof.
  intros H. unfold Os.isdir.
  destruct (Os.lookup fs d) as [cd|] eqn:L; [|done].
  rewrite (lookup_after_write _ _ _ _ _ _ H L).
  apply write_binary_ok in H as (c & _ & _ & _ & Hn & _ & ->).
  destruct (Os.node_at fs cd) as [[|?]|] eqn:E; [|done..]. intros _.
  by rewrite (write_keeps_dirs fs c b cd Hn E).
Qed.

(** The file that has been written can be opened and read. *)
Lemma read_binary_after_write fs p b fs2 :
  Os.write_binary fs p b = Ok fs2 -> Os.read_binary fs2 p = Ok b.
Proof.
  intros H. pose proof H as (c & L & _ & Hc & _ & _ & ->)%write_binary_ok.
  unfold Os.read_binary. rewrite (lookup_after_write _ _ _ _ _ _ H L).
  destruct c; [done|]. cbn [Os.node_at Os.tree]. by rewrite lookup_insert_eq.
Qed.



Lemma descend_raises_OSError fs p cur comps e :
  Os.descend fs p cur comps = Raised e -> isinstance e OSError = true.
Proof.
  revert cur. induction comps as [|x comps IH]; intros cur; simpl; [done|].
  destruct (Os.node_at fs cur) as [[|?]|]; [apply IH|by intros [= <-]..].
Qed.

Lemma write_raises_OSError fs p b e :
  Os.write_binary fs p b = Raised e -> isinstance e OSError = true.
Proof.
  unfold Os.write_binary, Os.lookup. destruct p as [|a p]; [by intros [= <-]|].
  destruct (Os.descend _ _ _ _) as [c|e'] eqn:D.
  - destruct (Os.node_at fs c) as [[|?]|]; [by intros [= <-]| |];
      (destruct (Os.names_directory _); [by intros [= <-]|done]).
  - intros [= <-]. by apply descend_raises_OSError in D.
Qed.

(** *** Making directories *)

Lemma grown_refl fs : grown fs fs.
Proof. split; [done|]. by left. Qed.

Lemma grown_trans fs1 fs2 fs3 : grown fs1 fs2 -> grown fs2 fs3 -> grown fs1 fs3.
Proof.
  intros [C1 H1] [C2 H2]. split; [congruence|]. intros c.
  destruct (H1 c) as [E1|[N1 D1]], (H2 c) as [E2|[N2 D2]].
  - left. congruence.
  - right. split; congruence.
  - right. split; congruence.
  - congruence.
Qed.

(** The components of a path are those that [mkdir] walks, and empty ones
    at the end. *)
Lemma strip_empty_repeat l :
  exists k, l = (Os.strip_empty l ++ repeat EmptyString k)%list.
Proof.
  induction l as [|c r [k IH]]; [by exists O|]. simpl.
  destruct (Os.strip_empty r) as [|x r'].
  - destruct (String.eqb c EmptyString) eqn:E.
    + apply String.eqb_eq in E as ->. exists (S k). simpl in *. by rewrite <- IH.
    + exists k. simpl in *. by rewrite <- IH.
  - exists k. simpl in *. by rewrite <- IH.
Qed.

Lemma descend_empty fs p c k :
  Os.node_at fs c = Some Os.Dir ->
  Os.descend fs p c (repeat EmptyString k) = Ok c.
Proof. intros H. induction k as [|k IH]; simpl; [done|]. by rewrite H. Qed.

Lemma mkdir_ok fs p fs' :
  Os.mkdir fs p = Ok fs' ->
  exists c, Os.resolve fs p = Some c
            /\ c <> []
            /\ Os.node_at fs c = None
            /\ fs' = Os.mkFS (Os.cwd fs) (<[c := Os.Dir]> (Os.tree fs))
            /\ Os.lookup fs' p = Ok c.
Proof.
  unfold Os.mkdir. destruct p as [|a p]; [done|].
  destruct (Os.descend _ _ _ _) as [c|e] eqn:D; [|done].
  destruct (bool_decide _) eqn:E; [done|].
  destruct (Os.is_name _); [|done]. intros [= <-].
  exists c. apply bool_decide_eq_false in E.
  assert (Hn : Os.node_at fs c = None).
  { destruct (Os.node_at fs c) eqn:N; [|done]. exfalso. apply E. by eexists. }
  assert (Hc : c <> []) by (by intros ->).
  repeat split; [|done..|].
  - apply descend_fold in D. unfold Os.resolve, Os.start_of in *.
    by rewrite D, fold_walk_strip.
  - unfold Os.lookup, Os.start_of. cbn [Os.cwd].
    destruct (strip_empty_repeat (Os.split_slash EmptyString (String a p)))
      as [k Hk].
    rewrite Hk, descend_app.
    rewrite (descend_more_dirs fs _ _ _ _ c); [| |exact D].
    + apply descend_empty. destruct c; [done|]. cbn [Os.node_at Os.tree].
      by rewrite lookup_insert_eq.
    + intros x Hx. destruct x as [|y x]; [done|]. cbn [Os.node_at Os.tree] in *.
      rewrite lookup_insert_ne; [done|]. intros ->. cbn [Os.node_at] in Hn.
      congruence.
Qed.

Lemma mkdir_grown fs p fs' : Os.mkdir fs p = Ok fs' -> grown fs fs'.
Proof.
  intros (c & _ & Hc & Hn & -> & _)%mkdir_ok. split; [done|]. intros x.
  destruct (decide (c = x)) as [<-|Hne].
  - right. split; [done|]. destruct c; [done|]. cbn [Os.node_at Os.tree].
    by rewrite lookup_insert_eq.
  - left. destruct x as [|y x]; [done|]. cbn [Os.node_at Os.tree].
    by rewrite lookup_insert_ne.
Qed.

Lemma mkdir_isdir fs p fs' : Os.mkdir fs p = Ok fs' -> Os.isdir fs' p = true.
Proof.
  intros (c & _ & Hc & _ & -> & L)%mkdir_ok.
  unfold Os.isdir. rewrite L.
  destruct c; [done|]. cbn [Os.node_at Os.tree]. by rewrite lookup_insert_eq.
Qed.

Lemma mkdir_raises_OSError fs p e :
  Os.mkdir fs p = Raised e -> isinstance e OSError = true.
Proof.
  unfold Os.mkdir. destruct p as [|a p]; [by intros [= <-]|].
  destruct (Os.descend _ _ _ _) as [c|e'] eqn:D.
  - destruct (bool_decide _); [by intros [= <-]|].
    destruct (Os.is_name _); [done|by intros [= <-]].
  - intros [= <-]. by apply descend_raises_OSError in D.
Qed.

Lemma mkdir_step_grown name fs fs' :
  grown fs fs' -> grown fs (fst (Os.mkdir_step name fs')).
Proof.
  intros G. unfold Os.mkdir_step. destruct (Os.mkdir fs' name) eqn:M; [|done].
  eapply grown_trans; [exact G|by eapply mkdir_grown].
Qed.

Lemma mkdir_step_raises name fs e :
  snd (Os.mkdir_step name fs) = Some e -> isinstance e OSError = true.
Proof.
  unfold Os.mkdir_step. destruct (Os.mkdir fs name) eqn:M; [done|].
  intros [= <-]. by apply mkdir_raises_OSError in M.
Qed.

Lemma mkdir_step_isdir name fs fs1 :
  Os.mkdir_step name fs = (fs1, None) -> Os.isdir fs1 name = true.
Proof.
  unfold Os.mkdir_step. destruct (Os.mkdir fs name) eqn:M; [|done].
  intros [= <-]. by apply mkdir_isdir in M.
Qed.

Ltac makedirs_condition :=
  match goal with
  | |- context [if negb ?a && negb ?b && negb ?c then _ else _] =>
      destruct (negb a && negb b && negb c)
  end.

Lemma makedirs_run_grown fuel fs name :
  grown fs (fst (Os.makedirs_run fuel fs name)).
Proof.
  revert fs name. induction fuel as [|k IH]; intros fs name;
    cbn [Os.makedirs_run]; destruct (Os.makedirs_split name) as [head tail];
    (makedirs_condition; [|apply mkdir_step_grown, grown_refl]).
  - apply mkdir_step_grown, grown_refl.
  - specialize (IH fs head).
    destruct (Os.makedirs_run k fs head) as [fs' [e|]]; simpl in IH.
    + destruct (isinstance e FileExistsError); [|done].
      destruct (String.eqb tail "."); [done|by apply mkdir_step_grown].
    + destruct (String.eqb tail "."); [done|by apply mkdir_step_grown].
Qed.

Lemma makedirs_run_raises_OSError fuel fs name e :
  snd (Os.makedirs_run fuel fs name) = Some e -> isinstance e OSError = true.
Proof.
  revert fs name. induction fuel as [|k IH]; intros fs name;
    cbn [Os.makedirs_run]; destruct (Os.makedirs_split name) as [head tail];
    (makedirs_condition; [|apply mkdir_step_raises]).
  - apply mkdir_step_raises.
  - specialize (IH fs head).
    destruct (Os.makedirs_run k fs head) as [fs' [e'|]]; simpl in IH.
    + destruct (isinstance e' FileExistsError).
      * destruct (String.eqb tail "."); [done|apply mkdir_step_raises].
      * intros [= <-]. by apply IH.
    + destruct (String.eqb tail "."); [done|apply mkdir_step_raises].
Qed.

(** When the path ends in a name, a [makedirs] that returns has made the
    directory itself. *)
Lemma makedirs_run_named fuel fs name fs1 :
  Os.is_name (Os.path_basename name) = true ->
  Os.makedirs_run fuel fs name = (fs1, None) ->
  Os.isdir fs1 name = true.
Proof.
  intros Hn.
  assert (Hs : Os.makedirs_split name = (Os.path_dirname name, Os.path_basename name)).
  { unfold Os.makedirs_split, Os.path_split. by destruct (Os.path_basename name). }
  assert (Hdot : String.eqb (Os.path_basename name) "." = false).
  { destruct (String.eqb (Os.path_basename name) ".") eqn:E; [|done].
    apply String.eqb_eq in E. by rewrite E in Hn. }
  destruct fuel as [|k]; cbn [Os.makedirs_run]; rewrite Hs;
    (makedirs_condition; [|apply mkdir_step_isdir]).
  - apply mkdir_step_isdir.
  - destruct (Os.makedirs_run k fs _) as [fs' [e|]].
    + destruct (isinstance e FileExistsError); [|done]. rewrite Hdot.
      apply mkdir_step_isdir.
    + rewrite Hdot. apply mkdir_step_isdir.
Qed.

Lemma grown_keeps_contents fs fs' q :
  grown fs fs' -> Os.read_file fs' q = Os.read_file fs q.
Proof.
  intros [Hc Hg]. unfold Os.read_file.
  assert (Os.resolve fs' q = Os.resolve fs q) as ->
    by (unfold Os.resolve; by rewrite Hc).
  destruct (Os.resolve fs q) as [c|]; [|done].
  destruct (Hg c) as [->|[-> ->]]; done.
Qed.

(** A [makedirs] that returns has made the directory itself, unless the
    path ends in the component [.]: there the standard library takes the
    directory for made as soon as the path before it has been dealt
    with. *)
Lemma makedirs_run_isdir fuel fs name fs1 :
  snd (Os.makedirs_split name) <> "." ->
  Os.makedirs_run fuel fs name = (fs1, None) ->
  Os.isdir fs1 name = true.
Proof.
  intros Hdot.
  destruct fuel as [|k]; cbn [Os.makedirs_run];
    destruct (Os.makedirs_split name) as [head tail]; simpl in Hdot;
    apply String.eqb_neq in Hdot;
    (makedirs_condition; [|apply mkdir_step_isdir]).
  - apply mkdir_step_isdir.
  - destruct (Os.makedirs_run k fs _) as [fs' [e|]].
    + destruct (isinstance e FileExistsError); [|done]. rewrite Hdot.
      apply mkdir_step_isdir.
    + rewrite Hdot. apply mkdir_step_isdir.
Qed.

(** *** The recursion of [makedirs] ends *)

Lemma length_of_list l : String.length (string_of_list_ascii l) = length l.
Proof. induction l as [|a l IH]; simpl; [done|]. by rewrite IH. Qed.

Lemma length_to_list s : length (list_ascii_of_string s) = String.length s.
Proof. induction s as [|a s IH]; simpl; [done|]. by rewrite IH. Qed.

Lemma drop_slashes_shorter l : (length (Os.drop_slashes l) <= length l)%nat.
Proof.
  induction l as [|a l IH]; simpl; [done|].
  destruct (Ascii.eqb a Os.slash); simpl; lia.
Qed.

Lemma split_lengths p :
  (String.length (Os.path_dirname p) + String.length (Os.path_basename p)
   <= String.length p)%nat.
Proof.
  unfold Os.path_dirname, Os.path_basename.
  rewrite !length_of_list, !length_rev.
  pose proof (f_equal (@length ascii) (take_drop_tail (rev (list_ascii_of_string p))))
    as Hl.
  rewrite length_app, length_rev, length_to_list in Hl.
  pose proof (drop_slashes_shorter (Os.drop_tail (rev (list_ascii_of_string p)))) as Hd.
  destruct (Os.drop_slashes _) as [|a s]; simpl in *; lia.
Qed.

Lemma not_empty_length s : Os.is_empty s = false -> (1 <= String.length s)%nat.
Proof. destruct s; simpl; [done|lia]. Qed.

(** The path the recursive call is made on is shorter. *)
Lemma makedirs_split_shorter name head tail :
  Os.makedirs_split name = (head, tail) ->
  Os.is_empty tail = false ->
  (String.length head < String.length name)%nat.
Proof.
  unfold Os.makedirs_split, Os.path_split. intros H Ht.
  pose proof (split_lengths name) as H1.
  pose proof (split_lengths (Os.path_dirname name)) as H2.
  apply not_empty_length in Ht.
  destruct (Os.is_empty (Os.path_basename name)); injection H as <- <-; lia.
Qed.

Lemma makedirs_run_fuel_any n : forall m fs name,
  (String.length name <= n)%nat ->
  (String.length name <= m)%nat ->
  Os.makedirs_run n fs name = Os.makedirs_run m fs name.
Proof.
  induction n as [|n IH]; intros m fs name Hn Hm; destruct m as [|m];
    cbn [Os.makedirs_run]; try reflexivity;
    destruct (Os.makedirs_split name) as [head tail] eqn:S;
    destruct (negb (Os.is_empty head) && negb (Os.is_empty tail)
              && negb (Os.path_exists fs head)) eqn:C; try reflexivity;
    apply andb_true_iff in C as [C _]; apply andb_true_iff in C as [_ C];
    apply negb_true_iff in C;
    pose proof (makedirs_split_shorter _ _ _ S C) as Hlt; try lia.
  rewrite (IH m fs head) by lia. reflexivity.
Qed.

(** More fuel than the length of the path changes nothing: [makedirs] is
    the function the standard library defines by recursion. *)
Lemma makedirs_run_fuel fuel fs name :
  (String.length name <= fuel)%nat ->
  Os.makedirs_run fuel fs name = Os.makedirs_run (String.length name) fs name.
Proof. intros H. by apply makedirs_run_fuel_any. Qed.

(** [makedirs] unfolded once, as the standard library states it. *)
Lemma makedirs_unfold fs name :
  Os.makedirs_run (String.length name) fs name
  = let (head, tail) := Os.makedirs_split name in
    if negb (Os.is_empty head) && negb (Os.is_empty tail)
       && negb (Os.path_exists fs head)
    then
      let (fs', raised) := Os.makedirs_run (String.length head) fs head in
      match raised with
      | Some e =>
          if isinstance e FileExistsError
          then if String.eqb tail "." then (fs', None) else Os.mkdir_step name fs'
          else (fs', Some e)
      | None => if String.eqb tail "." then (fs', None) else Os.mkdir_step name fs'
      end
    else Os.mkdir_step name fs.
Proof.
  destruct (Os.makedirs_split name) as [head tail] eqn:S.
  destruct (negb (Os.is_empty head) && negb (Os.is_empty tail)
            && negb (Os.path_exists fs head)) eqn:C.
  - pose proof C as C'.
    apply andb_true_iff in C' as [C' _]; apply andb_true_iff in C' as [_ C'];
      apply negb_true_iff in C'.
    pose proof (makedirs_split_shorter _ _ _ S C') as Hlt.
    destruct (String.length name) as [|k] eqn:L; [lia|].
    rewrite <- L. rewrite L at 1. cbn [Os.makedirs_run]. rewrite S, C.
    rewrite (makedirs_run_fuel k fs head) by lia. reflexivity.
  - destruct (String.length name); cbn [Os.makedirs_run]; by rewrite S, C.
Qed.

Lemma makedirs_run_ok fs p fs1 :
  Os.makedirs fs p = Ok fs1 <-> Os.makedirs_run (String.length p) fs p = (fs1, None).
Proof.
  unfold Os.makedirs. destruct (Os.makedirs_run _ fs p) as [fs' [e|]].
  - split; [done|]. by intros [= _].
  - split; [by intros [= <-]|by intros [= <-]].
Qed.

Lemma makedirs_grown fs p fs1 : Os.makedirs fs p = Ok fs1 -> grown fs fs1.
Proof.
  intros H%makedirs_run_ok.
  pose proof (makedirs_run_grown (String.length p) fs p) as G. by rewrite H in G.
Qed.

Lemma makedirs_isdir fs p fs1 :
  snd (Os.makedirs_split p) <> "." ->
  Os.makedirs fs p = Ok fs1 -> Os.isdir fs1 p = true.
Proof. intros Hd H%makedirs_run_ok. by apply (makedirs_run_isdir _ _ _ _ Hd H). Qed.

Lemma write_keeps_other_contents fs p b fs2 q :
  Os.write_binary fs p b = Ok fs2 ->
  Os.resolve fs q <> Os.resolve fs p ->
  Os.read_file fs2 q = Os.read_file fs q.
Proof.
  intros H Hq. apply write_binary_ok in H as (c & _ & R & Hc & _ & _ & ->).
  unfold Os.read_file. rewrite resolve_same_cwd.
  destruct (Os.resolve fs q) as [cq|] eqn:Rq; [|done].
  destruct cq as [|x cq]; [done|]. cbn [Os.node_at Os.tree].
  rewrite lookup_insert_ne; [done|]. intros ->. by rewrite R in Hq.
Qed.

Lemma resolve_cwd_eq fs fs' :
  Os.cwd fs' = Os.cwd fs -> forall p, Os.resolve fs' p = Os.resolve fs p.
Proof. intros H p. unfold Os.resolve. by rewrite H. Qed.

(** A write that succeeds finds the directory of the file in place. *)
Lemma write_in_directory fs p b fs2 :
  Os.path_dirname p <> EmptyString ->
  Os.write_binary fs p b = Ok fs2 ->
  Os.path_exists fs (Os.path_dirname p) = true
  /\ Os.isdir fs (Os.path_dirname p) = true.
Proof.
  intros Hne (c & L & _)%write_binary_ok. by apply (parent_exists fs p c).
Qed.

Lemma exists_empty fs : Os.path_exists fs EmptyString = false.
Proof. reflexivity. Qed.

Lemma makedirs_empty fuel fs :
  Os.makedirs_run fuel fs EmptyString = (fs, Some (Os.enoent EmptyString)).
Proof. by destruct fuel. Qed.
(** ** Download *)

(** The texts of the messages of [download]. *)
Lemma downloaded_message_text file_name output_directory :
  downloaded_message file_name output_directory
  = "File " +:+ file_name +:+ " downloaded to " +:+ output_directory +:+ ".".
Proof. reflexivity. Qed.

Lemma not_written_message_text file_name :
  not_written_message file_name = "File " +:+ file_name +:+ " could not be written.".
Proof. reflexivity. Qed.

Lemma not_downloaded_message_text file_name e :
  not_downloaded_message file_name e
  = "File " +:+ file_name +:+ " could not be downloaded: " +:+ exn_str e.
Proof. reflexivity. Qed.

Lemma writing_message_text file_name output_directory :
  writing_message file_name output_directory
  = file_name +:+ " binary file downloaded ... writing to " +:+ output_directory.
Proof. reflexivity. Qed.

(** The body of the [try], once the content has arrived: the directory is
    looked for and made if it is not there, the file is written, and the
    first statement that raises ends the body, with what was done before
    it left in place. *)
Lemma download_try_run env workflow output_directory access_token file_name w b :
  Client.on_download_file (client env) (calls w) workflow file_name access_token
    = Ok b ->
  let outputs_file_path := Os.path_join output_directory file_name in
  let parent := Os.path_dirname outputs_file_path in
  let fs := files_on_disk w in
  let fetched :=
    log_more [(INFO, writing_message file_name output_directory)]
      (call_more [Client.download_file workflow file_name access_token] w) in
  let made :=
    if Os.path_exists fs parent then (fs, None)
    else Os.makedirs_run (String.length parent) fs parent in
  download_try env workflow output_directory access_token file_name w
  = match snd made with
    | Some e => (set_files (fst made) fetched, Raise e)
    | None =>
        match Os.write_binary (fst made) outputs_file_path b with
        | Ok fs2 =>
            (echo_more
               [mkEcho (style (downloaded_message file_name output_directory) green)
                       false]
               (set_files fs2 fetched), Return tt)
        | Raised e => (set_files (fst made) fetched, Raise e)
        end
    end.
Proof.
  intros Hc p d fs fetched made. subst p d fs fetched made.
  unfold download_try, client_download_file, os_path_exists, os_makedirs,
    open_wb_write, update_files, logging_info, logging, echo, remote, bind.
  cbn [files_on_disk logged echoed calls]. rewrite Hc. cbn [ret].
  destruct (Os.path_exists _ _); cbn [negb ret files_on_disk fst snd].
  - by destruct (Os.write_binary _ _ _).
  - destruct (Os.makedirs_run _ _ _) as [fs1 [e|]]; cbn [fst snd files_on_disk];
      [done|]. by destruct (Os.write_binary _ _ _).
Qed.

(** The directory of the destination, once looked for and made. *)
Lemma made_ok fs d fs1 :
  (if Os.path_exists fs d then Ok fs else Os.makedirs fs d) = Ok fs1 ->
  (if Os.path_exists fs d then (fs, None)
   else Os.makedirs_run (String.length d) fs d) = (fs1, None).
Proof.
  destruct (Os.path_exists fs d); [by intros [= <-]|]. by intros H%makedirs_run_ok.
Qed.

Lemma made_not_empty fs d fs1 :
  (if Os.path_exists fs d then Ok fs else Os.makedirs fs d) = Ok fs1 ->
  d <> EmptyString.
Proof. by intros H ->. Qed.

Lemma made_grown fs d fs1 :
  (if Os.path_exists fs d then Ok fs else Os.makedirs fs d) = Ok fs1 -> grown fs fs1.
Proof.
  destruct (Os.path_exists fs d); [intros [= <-]; apply grown_refl|].
  apply makedirs_grown.
Qed.

Lemma download_try_written env workflow output_directory access_token file_name
    w b fs1 fs2 :
  Client.on_download_file (client env) (calls w) workflow file_name access_token
    = Ok b ->
  (if Os.path_exists (files_on_disk w)
        (Os.path_dirname (Os.path_join output_directory file_name))
   then Ok (files_on_disk w)
   else Os.makedirs (files_on_disk w)
          (Os.path_dirname (Os.path_join output_directory file_name))) = Ok fs1 ->
  Os.write_binary fs1 (Os.path_join output_directory file_name) b = Ok fs2 ->
  download_try env workflow output_directory access_token file_name w
  = (echo_more [mkEcho (style (downloaded_message file_name output_directory) green)
                       false]
       (set_files fs2
          (log_more [(INFO, writing_message file_name output_directory)]
             (call_more [Client.download_file workflow file_name access_token] w))),
     Return tt).
Proof.
  intros Hc Hd%made_ok Hw. rewrite (download_try_run _ _ _ _ _ _ b Hc). cbn zeta.
  rewrite Hd. cbn [fst snd]. by rewrite Hw.
Qed.

Lemma download_one_written
    env workflow output_directory access_token file_name w b fs1 fs2 :
  Client.on_download_file (client env) (calls w) workflow file_name access_token
    = Ok b ->
  (if Os.path_exists (files_on_disk w)
        (Os.path_dirname (Os.path_join output_directory file_name))
   then Ok (files_on_disk w)
   else Os.makedirs (files_on_disk w)
          (Os.path_dirname (Os.path_join output_directory file_name))) = Ok fs1 ->
  Os.write_binary fs1 (Os.path_join output_directory file_name) b = Ok fs2 ->
  download_one env workflow output_directory access_token file_name w
  = (echo_more [mkEcho (style (downloaded_message file_name output_directory) green)
                       false]
       (set_files fs2
          (log_more [(INFO, writing_message file_name output_directory)]
             (call_more [Client.download_file workflow file_name access_token] w))),
     Return tt).
Proof.
  intros Hc Hd Hw. unfold download_one. apply try_except_return.
  by apply (download_try_written _ _ _ _ _ _ b fs1).
Qed.

(** *** Failures of a download *)

Lemma client_download_failure env workflow output_directory file_name access_token w e :
  Client.on_download_file (client env) (calls w) workflow file_name access_token
    = Raised e ->
  download_try env workflow output_directory access_token file_name w
  = (call_more [Client.download_file workflow file_name access_token] w, Raise e).
Proof.
  intros H. unfold download_try. eapply bind_raise. by apply remote_raised.
Qed.

(** A raised exception reaches the first clause if it is an [OSError] and
    the second otherwise. *)
Lemma download_one_raised env workflow output_directory access_token file_name w w1 e :
  download_try env workflow output_directory access_token file_name w = (w1, Raise e) ->
  download_one env workflow output_directory access_token file_name w
  = (echo_more
       [mkEcho (style (if isinstance e OSError
                       then not_written_message file_name
                       else not_downloaded_message file_name e) red) true]
       (log_more [(DEBUG, format_exc env e); (DEBUG, exn_str e)] w1),
     Return tt).
Proof.
  intros H. unfold download_one. destruct (isinstance e OSError) eqn:Hc.
  - erewrite try_except_first; [apply handler_run|exact H|exact Hc].
  - erewrite try_except_second;
      [apply handler_run|exact H|exact Hc|apply isinstance_Exception].
Qed.

Lemma makedirs_raises_OSError fs d e :
  Os.makedirs fs d = Raised e -> isinstance e OSError = true.
Proof.
  unfold Os.makedirs.
  pose proof (makedirs_run_raises_OSError (String.length d) fs d) as H.
  destruct (Os.makedirs_run _ fs d) as [fs1 [e'|]]; [|done].
  intros [= <-]. by apply H.
Qed.

(** The directory could not be made: the file is reported as not written,
    and what [makedirs] created before it failed stays. *)
Lemma download_one_not_made env workflow output_directory access_token file_name
    w b fs1 e :
  let parent := Os.path_dirname (Os.path_join output_directory file_name) in
  Client.on_download_file (client env) (calls w) workflow file_name access_token
    = Ok b ->
  Os.path_exists (files_on_disk w) parent = false ->
  Os.makedirs_run (String.length parent) (files_on_disk w) parent = (fs1, Some e) ->
  download_one env workflow output_directory access_token file_name w
  = (echo_more [mkEcho (style (not_written_message file_name) red) true]
       (log_more [(DEBUG, format_exc env e); (DEBUG, exn_str e)]
          (set_files fs1
             (log_more [(INFO, writing_message file_name output_directory)]
                (call_more [Client.download_file workflow file_name access_token]
                   w)))),
     Return tt).
Proof.
  intros d Hc He Hm. subst d.
  assert (Hos : isinstance e OSError = true).
  { exact (makedirs_run_raises_OSError _ _ _ e (f_equal snd Hm)). }
  erewrite download_one_raised.
  - by rewrite Hos.
  - rewrite (download_try_run _ _ _ _ _ _ b Hc). cbn zeta. by rewrite He, Hm.
Qed.

(** The file could not be opened: the file is reported as not written, and
    the directory made for it stays. *)
Lemma download_one_not_opened env workflow output_directory access_token file_name
    w b fs1 e :
  let outputs_file_path := Os.path_join output_directory file_name in
  let parent := Os.path_dirname outputs_file_path in
  Client.on_download_file (client env) (calls w) workflow file_name access_token
    = Ok b ->
  (if Os.path_exists (files_on_disk w) parent then Ok (files_on_disk w)
   else Os.makedirs (files_on_disk w) parent) = Ok fs1 ->
  Os.write_binary fs1 outputs_file_path b = Raised e ->
  download_one env workflow output_directory access_token file_name w
  = (echo_more [mkEcho (style (not_written_message file_name) red) true]
       (log_more [(DEBUG, format_exc env e); (DEBUG, exn_str e)]
          (set_files fs1
             (log_more [(INFO, writing_message file_name output_directory)]
                (call_more [Client.download_file workflow file_name access_token]
                   w)))),
     Return tt).
Proof.
  intros p d Hc Hd%made_ok Hw. subst p d.
  erewrite download_one_raised.
  - by rewrite (write_raises_OSError _ _ _ _ Hw).
  - rewrite (download_try_run _ _ _ _ _ _ b Hc). cbn zeta.
    rewrite Hd. cbn [fst snd]. by rewrite Hw.
Qed.

(** C4, as amended: when the remote call has delivered the content of a
    file, the content goes to the output directory joined with the file
    name.  If the directory of that path is there or can be made, and the
    file can be opened, then the directory is in place when the file is
    written, the file holds exactly the delivered bytes (reading it back
    gives them), and [File F downloaded to D.] is printed in green.  If making the directory or
    opening the file fails, the content is dropped: no file has another
    content than before, and [File F could not be written.] goes to the
    error stream in red. *)
Theorem download_writes_the_payload
    env workflow output_directory access_token file_name w b :
  let outputs_file_path := Os.path_join output_directory file_name in
  let parent := Os.path_dirname outputs_file_path in
  let fs := files_on_disk w in
  let fetched :=
    log_more [(INFO, file_name +:+ " binary file downloaded ... writing to "
                     +:+ output_directory)]
      (call_more [Client.download_file workflow file_name access_token] w) in
  let not_written e fs1 :=
    (echo_more
       [mkEcho (style ("File " +:+ file_name +:+ " could not be written.") red) true]
       (log_more [(DEBUG, format_exc env e); (DEBUG, exn_str e)]
          (set_files fs1 fetched)),
     Return tt) in
  Client.on_download_file (client env) (calls w) workflow file_name access_token
    = Ok b ->
  (forall fs1 fs2,
     (if Os.path_exists fs parent then Ok fs else Os.makedirs fs parent) = Ok fs1 ->
     Os.write_binary fs1 outputs_file_path b = Ok fs2 ->
     download_one env workflow output_directory access_token file_name w
     = (echo_more
          [mkEcho (style ("File " +:+ file_name +:+ " downloaded to "
                          +:+ output_directory +:+ ".") green) false]
          (set_files fs2 fetched),
        Return tt)
     /\ Os.read_file fs2 outputs_file_path = Some b
     /\ Os.read_binary fs2 outputs_file_path = Ok b
     /\ Os.isdir fs1 parent = true
     /\ Os.isdir fs2 parent = true)
  /\ (forall fs1 e,
     Os.path_exists fs parent = false ->
     Os.makedirs_run (String.length parent) fs parent = (fs1, Some e) ->
     download_one env workflow output_directory access_token file_name w
     = not_written e fs1
     /\ forall q, Os.read_file fs1 q = Os.read_file fs q)
  /\ (forall fs1 e,
     (if Os.path_exists fs parent then Ok fs else Os.makedirs fs parent) = Ok fs1 ->
     Os.write_binary fs1 outputs_file_path b = Raised e ->
     download_one env workflow output_directory access_token file_name w
     = not_written e fs1
     /\ forall q, Os.read_file fs1 q = Os.read_file fs q).
Proof.
  intros p d fs fetched not_written Hc. split; [|split].
  - intros fs1 fs2 Hd Hw.
    destruct (write_in_directory fs1 p b fs2 (made_not_empty _ _ _ Hd) Hw)
      as [_ Hdir].
    repeat split; [|by apply (read_after_write fs1)
                   |by apply (read_binary_after_write fs1)|done
                   |by apply (isdir_after_write fs1 p b)].
    rewrite <- downloaded_message_text. unfold fetched.
    rewrite <- writing_message_text.
    by apply (download_one_written _ _ _ _ _ _ b fs1).
  - intros fs1 e He Hm. split.
    + unfold not_written, fetched.
      rewrite <- not_written_message_text, <- writing_message_text.
      by apply (download_one_not_made _ _ _ _ _ _ b).
    + intros q. apply grown_keeps_contents.
      pose proof (makedirs_run_grown (String.length d) fs d) as G.
      by rewrite Hm in G.
  - intros fs1 e Hd Hw. split.
    + unfold not_written, fetched.
      rewrite <- not_written_message_text, <- writing_message_text.
      by apply (download_one_not_opened _ _ _ _ _ _ b).
    + intros q. apply grown_keeps_contents. by apply (made_grown fs d).
Qed.

Lemma download_writes_the_payload_witness :
  Os.path_join "/tmp/x" "out/result.txt" = "/tmp/x/out/result.txt"
  /\ download_one Demo.env "wf" "/tmp/x" "tok" "out/result.txt" Demo.world
     = (mkWorld [(INFO, "out/result.txt binary file downloaded ... writing to /tmp/x")]
                [mkEcho (style "File out/result.txt downloaded to /tmp/x." green) false]
                [Client.download_file "wf" "out/result.txt" "tok"]
                Demo.fs_result,
        Return tt)
  /\ Os.read_binary Demo.fs_result "/tmp/x/out/result.txt" = Ok [Byte.x68; Byte.x69]
  /\ Os.isdir Demo.fs "/tmp/x/out" = false
  /\ Os.isdir Demo.fs_out "/tmp/x/out" = true
  /\ Os.isdir Demo.fs_result "/tmp/x/out" = true.
Proof.
  destruct (proj1 (download_writes_the_payload Demo.env "wf" "/tmp/x" "tok"
                     "out/result.txt" Demo.world [Byte.x68; Byte.x69] eq_refl)
              Demo.fs_out Demo.fs_result)
    as (Hrun & _ & Hread & Hdir1 & Hdir2);
    [vm_compute; reflexivity | vm_compute; reflexivity |].
  split; [reflexivity|]. split; [exact Hrun|].
  split; [exact Hread|]. split; [reflexivity|]. split; [exact Hdir1|exact Hdir2].
Defined.

(** C4 as it is stated does not hold of every fetched file.  With the empty
    string as output directory the content of [result.txt] arrives, but the
    directory of the destination is the empty path, which does not exist
    and cannot be made: no file is written, no success message is printed,
    and the file is reported as not written. *)
Lemma fetched_file_is_not_written :
  let run := download_one Demo.env "wf" EmptyString "tok" "result.txt" Demo.world in
  Client.on_download_file Demo.client [] "wf" "result.txt" "tok"
    = Ok [Byte.x68; Byte.x69]
  /\ Os.path_join EmptyString "result.txt" = "result.txt"
  /\ files_on_disk (fst run) = Demo.fs
  /\ Os.read_binary (files_on_disk (fst run)) "result.txt"
     = Raised (Os.enoent "result.txt")
  /\ echoed (fst run)
     = [mkEcho (style "File result.txt could not be written." red) true]
  /\ ~ In (mkEcho (style "File result.txt downloaded to ." green) false)
          (echoed (fst run)).
Proof.
  intros run. repeat split; try (vm_compute; reflexivity).
  intros Hin. vm_compute in Hin. by destruct Hin as [H|[]].
Qed.



(** *** What holds of C2 *)

(** A failure of the remote call that is no [OSError] is reported as a
    failed download, with its text. *)
Lemma download_failure_reported env workflow output_directory access_token file_name w e :
  Client.on_download_file (client env) (calls w) workflow file_name access_token
    = Raised e ->
  isinstance e OSError = false ->
  download_one env workflow output_directory access_token file_name w
  = (echo_more [mkEcho (style (not_downloaded_message file_name e) red) true]
       (log_more [(DEBUG, format_exc env e); (DEBUG, exn_str e)]
          (call_more [Client.download_file workflow file_name access_token] w)),
     Return tt).
Proof.
  intros Hc Hi.
  erewrite download_one_raised by (by apply client_download_failure).
  by rewrite Hi.
Qed.

(** When the content has arrived and creating the parent directory or
    writing the file fails, the file is reported as not written. *)
Lemma write_failure_reported env workflow output_directory access_token file_name
    w b e :
  let outputs_file_path := Os.path_join output_directory file_name in
  let parent := Os.path_dirname outputs_file_path in
  let fs := files_on_disk w in
  Client.on_download_file (client env) (calls w) workflow file_name access_token
    = Ok b ->
  match (if Os.path_exists fs parent then Ok fs else Os.makedirs fs parent) with
  | Ok fs1 => Os.write_binary fs1 outputs_file_path b
  | Raised e => Raised e
  end = Raised e ->
  echoed (fst (download_one env workflow output_directory access_token file_name w))
  = (echoed w ++ [mkEcho (style (not_written_message file_name) red) true])%list.
Proof.
  intros p d fs Hc Hfail.
  destruct (if Os.path_exists fs d then Ok fs else Os.makedirs fs d)
    as [fs1|e'] eqn:Hd.
  - by erewrite (download_one_not_opened _ _ _ _ _ _ b fs1 e).
  - injection Hfail as ->. destruct (Os.path_exists fs d) eqn:He; [done|].
    unfold Os.makedirs in Hd.
    destruct (Os.makedirs_run _ fs d) as [fs1 [e0|]] eqn:Hm; [|done].
    injection Hd as ->.
    by erewrite (download_one_not_made _ _ _ _ _ _ b fs1 e).
Qed.

Lemma download_try_calls env workflow output_directory access_token file_name w :
  calls (fst (download_try env workflow output_directory access_token file_name w))
  = (calls w ++ [Client.download_file workflow file_name access_token])%list.
Proof.
  destruct (Client.on_download_file (client env) (calls w) workflow file_name
              access_token) as [b|e] eqn:Hc.
  - rewrite (download_try_run _ _ _ _ _ _ b Hc). cbn zeta.
    destruct (snd _); [done|]. by destruct (Os.write_binary _ _ _).
  - by erewrite client_download_failure.
Qed.

Lemma download_one_calls env workflow output_directory access_token file_name w :
  calls (fst (download_one env workflow output_directory access_token file_name w))
  = (calls w ++ [Client.download_file workflow file_name access_token])%list.
Proof.
  pose proof (download_try_calls env workflow output_directory access_token
                file_name w) as Hc.
  destruct (download_try env workflow output_directory access_token file_name w)
    as [w1 [[]|e|c]] eqn:E.
  - unfold download_one. by erewrite try_except_return.
  - erewrite download_one_raised by exact E. exact Hc.
  - by apply never_exits_download_try in E.
Qed.

(** The loop goes on after any failure; the client is asked for every
    file, in order. *)
Lemma download_loop_calls env ctx workflow file_ output_directory access_token w :
  truthy access_token = true ->
  truthy workflow = true ->
  calls (fst (download_files env ctx workflow file_ output_directory access_token w))
  = (calls w ++ map (fun f => Client.download_file (the workflow) f (the access_token))
                    file_)%list.
Proof.
  intros Ht Hw. unfold download_files. rewrite prologue_run by done. rewrite Hw.
  change (calls w) with (calls (log_more (invocation_log ctx) w)).
  generalize (log_more (invocation_log ctx) w). clear w.
  induction file_ as [|f l IH]; intros w.
  - simpl. by rewrite app_nil_r.
  - rewrite for_cons by (intros; apply download_one_returns).
    rewrite IH, download_one_calls. simpl. by rewrite <- app_assoc.
Qed.

(** Where C2 fails: the first clause also takes an [OSError] that the
    remote call itself raised, before anything was written. *)
Lemma remote_OSError_taken_for_write_failure
    env workflow output_directory access_token file_name w e :
  Client.on_download_file (client env) (calls w) workflow file_name access_token
    = Raised e ->
  isinstance e OSError = true ->
  download_one env workflow output_directory access_token file_name w
  = (echo_more [mkEcho (style (not_written_message file_name) red) true]
       (log_more [(DEBUG, format_exc env e); (DEBUG, exn_str e)]
          (call_more [Client.download_file workflow file_name access_token] w)),
     Return tt).
Proof.
  intros Hc Hi.
  erewrite download_one_raised by (by apply client_download_failure).
  by rewrite Hi.
Qed.

(** C2, at the input where the code departs from it: the server is
    unreachable for [offline.bin], so that the remote call raises a
    [ConnectionError], which is an [OSError].  The file is reported as
    "could not be written", not as "could not be downloaded: Connection
    refused"; no file was written for it.  The second file is still
    downloaded. *)
Theorem unreachable_server_reported_as_write_failure :
  let e := mkExn ConnectionError "Connection refused" in
  let r := download_files Demo.env (Demo.ctx "download" (Some "tok")) (Some "wf")
             ["offline.bin"; "out/result.txt"] "/tmp/x" (Some "tok") Demo.world in
  Client.on_download_file Demo.client [] "wf" "offline.bin" "tok" = Raised e
  /\ isinstance e OSError = true
  /\ echoed (fst r)
     = [mkEcho (style (not_written_message "offline.bin") red) true;
        mkEcho (style (downloaded_message "out/result.txt" "/tmp/x") green) false]
  /\ ~ In (mkEcho (style (not_downloaded_message "offline.bin" e) red) true)
          (echoed (fst r))
  /\ Os.path_exists (files_on_disk (fst r)) "/tmp/x/offline.bin" = false
  /\ snd r = Return tt.
Proof.
  intros e r. repeat split; try (vm_compute; reflexivity).
  intros Hin. vm_compute in Hin. by destruct Hin as [H|[H|[]]].
Qed.

(** The lines of that run, as they are printed. *)
Example unreachable_server_lines :
  echoed (fst (download_files Demo.env (Demo.ctx "download" (Some "tok")) (Some "wf")
                 ["offline.bin"; "missing.txt"; "out/result.txt"] "/tmp/x"
                 (Some "tok") Demo.world))
  = [mkEcho (style "File offline.bin could not be written." red) true;
     mkEcho (style "File missing.txt could not be downloaded: missing.txt does not exist"
                   red) true;
     mkEcho (style "File out/result.txt downloaded to /tmp/x." green) false].
Proof. vm_compute. reflexivity. Qed.

(** ** List *)

Lemma project_run r w :
  has_fields r -> project r w = (w, Return (string_triple r)).
Proof.
  intros H. unfold has_fields, headers in H.
  apply Forall_cons in H as [[name Hn] H].
  apply Forall_cons in H as [[size Hs] H].
  apply Forall_cons in H as [[modified Hm] _].
  unfold project, getitem, string_triple, headers, bind. simpl.
  by rewrite Hn, Hs, Hm.
Qed.

Lemma map_M_project rs w :
  Forall has_fields rs -> map_M project rs w = (w, Return (map string_triple rs)).
Proof.
  induction 1 as [|r rs Hr Hrs IH]; [done|]. simpl.
  erewrite bind_run by (by apply project_run).
  by erewrite bind_run by exact IH.
Qed.

Lemma client_get_files_records env workflow access_token w rs :
  Client.on_get_files (client env) (calls w) workflow access_token = Ok rs ->
  client_get_files env workflow access_token w
  = (call_more [Client.get_files workflow access_token] w, Return rs).
Proof.
  intros H. by apply remote_ok.
Qed.

(** C6: on the success path of [list], the records the client returned are
    turned into their string triples; with an output format, the dataset
    built from the headers and the triples is exported, after the columns
    of the filter have been selected if there is a filter, and the result
    is printed; without one, the table printer is given the same headers,
    filter and triples, and its lines are printed. *)
Theorem list_renders_the_records
    env ctx workflow _filter output_format access_token w rs :
  truthy access_token = true ->
  truthy workflow = true ->
  Client.on_get_files (client env) (calls w) (the workflow) (the access_token)
    = Ok rs ->
  Forall has_fields rs ->
  let data := map string_triple rs in
  let printed lines :=
    (echo_more (map (fun line => mkEcho line false) lines)
       (call_more [Client.get_files (the workflow) (the access_token)]
          (log_more (invocation_log ctx ++ [(INFO, workflow_selected (the workflow))])
             w)),
     Return tt) in
  let run := get_files env ctx workflow _filter output_format access_token w in
  (forall exported,
     truthy output_format = true -> _filter = [] ->
     tablib_export env (mkDataset headers data) (the output_format) = Ok exported ->
     run = printed [exported])
  /\ (forall columns exported,
     truthy output_format = true -> _filter <> [] ->
     tablib_subset env (mkDataset headers data) _filter = Ok (Some columns) ->
     tablib_export env columns (the output_format) = Ok exported ->
     run = printed [exported])
  /\ (forall lines,
     truthy output_format = false ->
     click_table_printer env headers _filter data = (lines, None) ->
     run = printed lines).
Proof.
  intros Ht Hw Hc Hrs data printed run.
  assert (Hstart : forall k : list (list string) -> M unit,
    (response <- client_get_files env (the workflow) (the access_token) ;;
     data <- map_M project response ;; k data)
      (log_more (invocation_log ctx ++ [(INFO, workflow_selected (the workflow))]) w)
    = k data
        (call_more [Client.get_files (the workflow) (the access_token)]
           (log_more (invocation_log ctx ++ [(INFO, workflow_selected (the workflow))])
              w))).
  { intros k. erewrite bind_run by (by apply client_get_files_records).
    by erewrite bind_run by (by apply map_M_project). }
  unfold run. rewrite get_files_present by done.
  repeat split.
  - intros exported Hf -> He. apply try_except_return.
    unfold get_files_try. rewrite Hstart, Hf.
    unfold bind at 1. cbn [ret]. rewrite He. apply echo_run.
  - intros columns exported Hf Hne Hs He. apply try_except_return.
    unfold get_files_try. rewrite Hstart, Hf.
    destruct _filter as [|c cs]; [done|]. rewrite Hs.
    unfold bind at 1. cbn [lift_result ret]. rewrite He. apply echo_run.
  - intros lines Hf Hp. apply try_except_return.
    unfold get_files_try. rewrite Hstart, Hf. cbn zeta. rewrite Hp. cbn [fst snd].
    erewrite bind_run by apply for_echo. reflexivity.
Qed.

Lemma list_renders_the_records_witness :
  get_files Demo.env (Demo.ctx "list" (Some "tok")) (Some "wf") [] None (Some "tok")
            Demo.world
  = (mkWorld [(DEBUG, "command: reana-client.files.list");
              (DEBUG, "workflow: wf"); (DEBUG, "access_token: tok");
              (INFO, workflow_selected "wf")]
             [mkEcho "name size last-modified" false; mkEcho "a.txt 10 t1" false]
             [Client.get_files "wf" "tok"] Demo.fs, Return tt)
  /\ get_files Demo.env (Demo.ctx "list" (Some "tok")) (Some "wf") ["name"]
               (Some "json") (Some "tok") Demo.world
  = (mkWorld [(DEBUG, "command: reana-client.files.list");
              (DEBUG, "workflow: wf"); (DEBUG, "access_token: tok");
              (INFO, workflow_selected "wf")]
             [mkEcho "name,a.txt" false]
             [Client.get_files "wf" "tok"] Demo.fs, Return tt).
Proof.
  split.
  - refine (proj2 (proj2 (list_renders_the_records Demo.env
              (Demo.ctx "list" (Some "tok")) (Some "wf") [] None (Some "tok")
              Demo.world [Demo.a_txt] eq_refl eq_refl eq_refl _))
              ["name size last-modified"; "a.txt 10 t1"] eq_refl eq_refl).
    repeat constructor; by eexists.
  - refine (proj1 (proj2 (list_renders_the_records Demo.env
              (Demo.ctx "list" (Some "tok")) (Some "wf") ["name"] (Some "json")
              (Some "tok") Demo.world [Demo.a_txt] eq_refl eq_refl eq_refl _))
              (mkDataset ["name"] [["a.txt"]]) "name,a.txt"
              eq_refl _ eq_refl eq_refl).
    + repeat constructor; by eexists.
    + done.
Defined.

(** ** What the log shows of the access token *)

Section Simulation.

Variables t1 t2 : string.
Variables L1 L2 : list (level * string).

Notation "m1 ~ m2" := (sim t1 t2 L1 L2 m1 m2) (at level 70).

Lemma sim_ret {A} (a : A) : ret a ~ ret a.
Proof. by intros w1 w2 H. Qed.

Lemma sim_raise {A} e : @raise A e ~ raise e.
Proof. by intros w1 w2 H. Qed.

Lemma sim_exit {A} c : @sys_exit A c ~ sys_exit c.
Proof. by intros w1 w2 H. Qed.

Lemma sim_bind {A B} (m1 m2 : M A) (k1 k2 : A -> M B) :
  m1 ~ m2 -> (forall a, k1 a ~ k2 a) -> (x <- m1 ;; k1 x) ~ (x <- m2 ;; k2 x).
Proof.
  intros Hm Hk w1 w2 H. unfold bind.
  destruct (Hm w1 w2 H) as [Hw Ho].
  destruct (m1 w1) as [w1' o1], (m2 w2) as [w2' o2]. simpl in *. subst o2.
  destruct o1 as [a|e|c]; [by apply Hk|done..].
Qed.

Lemma sim_logging l msg : logging l msg ~ logging l msg.
Proof.
  intros w1 w2 (l0 & H1 & H2 & He & Hf & Ht & Hc). split; [|done].
  exists (l0 ++ [(l, msg)])%list. simpl.
  by rewrite H1, H2, <- !app_assoc.
Qed.

Lemma sim_echo text err : echo text err ~ echo text err.
Proof.
  intros w1 w2 (l0 & H1 & H2 & He & Hf & Ht & Hc). split; [|done].
  exists l0. simpl. by rewrite He.
Qed.

(** A call made with the first token and the same call made with the
    second, on a client that answers the two alike after calls with
    them. *)
Lemma sim_remote {A} c (answer1 answer2 : list Client.call -> result A) :
  token_of c = t1 ->
  (forall hist,
     Forall (fun k => token_of k = t1) hist ->
     answer2 (map (retoken t2) hist) = answer1 hist) ->
  remote c answer1 ~ remote (retoken t2 c) answer2.
Proof.
  intros Htok Hb w1 w2 (l0 & H1 & H2 & He & Hf & Ht & Hc). split.
  - exists l0. simpl. rewrite Hc, map_app. repeat split; try done.
    apply Forall_app. split; [done|]. by constructor.
  - simpl. by rewrite Hc, Hb.
Qed.

Lemma sim_path_exists p : os_path_exists p ~ os_path_exists p.
Proof.
  intros w1 w2 H. split; [done|].
  destruct H as (l0 & H1 & H2 & He & Hf & Ht & Hc). simpl. by rewrite Hf.
Qed.

Lemma sim_makedirs p : os_makedirs p ~ os_makedirs p.
Proof.
  intros w1 w2 (l0 & H1 & H2 & He & Hf & Ht & Hc).
  unfold os_makedirs. rewrite Hf. split; [|done]. by exists l0.
Qed.

Lemma sim_update op : update_files op ~ update_files op.
Proof.
  intros w1 w2 H. pose proof H as (l0 & H1 & H2 & He & Hf & Ht & Hc).
  unfold update_files. rewrite Hf.
  destruct (op (files_on_disk w1)); [|done].
  split; [|done]. by exists l0.
Qed.

Lemma sim_lift {A} (r : result A) : lift_result r ~ lift_result r.
Proof. destruct r; [apply sim_ret | apply sim_raise]. Qed.

Lemma sim_for {A} (l : list A) body1 body2 :
  (forall x, body1 x ~ body2 x) -> for_ l body1 ~ for_ l body2.
Proof.
  intros H. induction l as [|x l IH]; simpl; [apply sim_ret|].
  by apply sim_bind.
Qed.

Lemma sim_map_M {A B} (f : A -> M B) l : (forall x, f x ~ f x) -> map_M f l ~ map_M f l.
Proof.
  intros H. induction l as [|x l IH]; simpl; [apply sim_ret|].
  apply sim_bind; [done|]. intros y.
  apply sim_bind; [done|]. intros ys. apply sim_ret.
Qed.

Lemma sim_getitem d key : getitem d key ~ getitem d key.
Proof. unfold getitem. destruct (dict_get d key); [apply sim_ret|apply sim_raise]. Qed.

Lemma sim_try {A} (body1 body2 : M A) hs1 hs2 :
  body1 ~ body2 ->
  Forall2 (fun h1 h2 => fst h1 = fst h2 /\ forall e, snd h1 e ~ snd h2 e) hs1 hs2 ->
  try_except body1 hs1 ~ try_except body2 hs2.
Proof.
  intros Hb Hh w1 w2 H. unfold try_except.
  destruct (Hb w1 w2 H) as [Hw Ho].
  destruct (body1 w1) as [w1' o1], (body2 w2) as [w2' o2]. simpl in *. subst o2.
  destruct o1 as [a|e|c]; [done| |done].
  induction Hh as [|h1 h2 hs1 hs2 [Hc Hs] Hh IH]; [done|].
  simpl. rewrite <- Hc. destruct (isinstance e (fst h1)); [by apply Hs|exact IH].
Qed.

Lemma sim_handler env (text : string) e :
  (logging_debug (format_exc env e) ;; logging_debug (exn_str e) ;; echo text true)
  ~ (logging_debug (format_exc env e) ;; logging_debug (exn_str e) ;; echo text true).
Proof.
  apply sim_bind; [apply sim_logging|]. intros _.
  apply sim_bind; [apply sim_logging|]. intros _. apply sim_echo.
Qed.

Lemma sim_download_one env workflow output_directory file_name :
  answers_alike (client env) t1 t2 ->
  download_one env workflow output_directory t1 file_name
  ~ download_one env workflow output_directory t2 file_name.
Proof.
  intros Hb. unfold download_one. apply sim_try.
  - unfold download_try, client_download_file.
    apply sim_bind.
    + apply (sim_remote (Client.download_file _ _ t1)); [done|].
      intros hist Hh. apply (Hb hist Hh).
    + intros b. apply sim_bind; [apply sim_logging|]. intros _.
      apply sim_bind; [apply sim_path_exists|]. intros there.
      apply sim_bind;
        [destruct there; [apply sim_ret|apply sim_makedirs]|]. intros _.
      apply sim_bind; [apply sim_update|]. intros _. apply sim_echo.
  - repeat (constructor 2; [split; [done|intros e; apply sim_handler]|]).
    constructor 1.
Qed.

Lemma sim_upload_one env workflow filename :
  answers_alike (client env) t1 t2 ->
  upload_one env workflow t1 filename ~ upload_one env workflow t2 filename.
Proof.
  intros Hb. unfold upload_one. apply sim_try.
  - unfold client_upload_to_server. apply sim_bind.
    + apply (sim_remote (Client.upload_to_server _ _ t1)); [done|].
      intros hist Hh. apply (Hb hist Hh).
    + intros response. apply sim_for. intros file_. apply sim_echo.
  - repeat (constructor 2; [split; [done|intros e; apply sim_handler]|]).
    constructor 1.
Qed.

Lemma sim_get_files_try env workflow _filter output_format :
  answers_alike (client env) t1 t2 ->
  get_files_try env workflow t1 _filter output_format
  ~ get_files_try env workflow t2 _filter output_format.
Proof.
  intros Hb. unfold get_files_try, client_get_files. apply sim_bind.
  - apply (sim_remote (Client.get_files _ t1)); [done|].
    intros hist Hh. apply (Hb hist Hh).
  - intros response. apply sim_bind.
    + apply sim_map_M. intros r. unfold project.
      apply sim_bind; [apply sim_getitem|]. intros name.
      apply sim_bind; [apply sim_getitem|]. intros size.
      apply sim_bind; [apply sim_getitem|]. intros modified. apply sim_ret.
    + intros data. destruct (truthy output_format).
      * apply sim_bind; [destruct _filter; [apply sim_ret|apply sim_lift]|].
        intros [d|]; [|apply sim_raise].
        apply sim_bind; [apply sim_lift|]. intros exported. apply sim_echo.
      * cbn zeta. apply sim_bind; [apply sim_for; intros; apply sim_echo|].
        intros _. destruct (snd _); [apply sim_raise|apply sim_ret].
Qed.

(** The three commands, once the token has passed the check. *)
Lemma sim_commands env workflow _filter output_format file_ output_directory
    filenames :
  answers_alike (client env) t1 t2 ->
  (if truthy workflow then
     logging_info (workflow_selected (the workflow)) ;;
     try_except
       (get_files_try env (the workflow) (the (Some t1)) _filter output_format)
       [(Exception, fun e =>
           logging_debug (format_exc env e) ;;
           logging_debug (exn_str e) ;;
           echo (style (get_files_failed (the workflow) e) red) true)]
   else echo (style missing_workflow_message red) true)
  ~ (if truthy workflow then
       logging_info (workflow_selected (the workflow)) ;;
       try_except
         (get_files_try env (the workflow) (the (Some t2)) _filter output_format)
         [(Exception, fun e =>
             logging_debug (format_exc env e) ;;
             logging_debug (exn_str e) ;;
             echo (style (get_files_failed (the workflow) e) red) true)]
     else echo (style missing_workflow_message red) true)
  /\ (if truthy workflow then
        for_ file_ (download_one env (the workflow) output_directory (the (Some t1)))
      else echo (style missing_workflow_message red) true)
     ~ (if truthy workflow then
          for_ file_ (download_one env (the workflow) output_directory (the (Some t2)))
        else echo (style missing_workflow_message red) true)
  /\ (if truthy workflow then
        for_ filenames (upload_one env (the workflow) (the (Some t1)))
      else echo (style missing_workflow_message red) true)
     ~ (if truthy workflow then
          for_ filenames (upload_one env (the workflow) (the (Some t2)))
        else echo (style missing_workflow_message red) true).
Proof.
  intros Hb.
  split; [|split]; (destruct (truthy workflow); [|apply sim_echo]).
  - apply sim_bind; [apply sim_logging|]. intros _.
    apply sim_try; [by apply sim_get_files_try|].
    constructor 2; [split; [done|intros e; apply sim_handler]|]. constructor 1.
  - apply sim_for. intros f. by apply sim_download_one.
  - apply sim_for. intros f. by apply sim_upload_one.
Qed.

End Simulation.

Lemma dump_shows_parameter ctx key v :
  In (key, v) (params ctx) ->
  In (DEBUG, key +:+ ": " +:+ str v) (invocation_log ctx).
Proof.
  intros H. right.
  apply (in_map (fun p => (DEBUG, fst p +:+ ": " +:+ str (snd p))) _ _ H).
Qed.

Lemma alike_after_invocation t1 t2 ctx1 ctx2 w :
  calls w = [] ->
  alike t1 t2 (logged w ++ invocation_log ctx1) (logged w ++ invocation_log ctx2)
        (log_more (invocation_log ctx1) w) (log_more (invocation_log ctx2) w).
Proof.
  intros Hc. exists []. simpl. rewrite !app_nil_r, Hc. repeat split. constructor.
Qed.

Lemma sim_splits_log t1 t2 ctx1 ctx2 (m1 m2 : M unit) w :
  calls w = [] ->
  sim t1 t2 (logged w ++ invocation_log ctx1) (logged w ++ invocation_log ctx2) m1 m2 ->
  exists body,
    logged (fst (m1 (log_more (invocation_log ctx1) w)))
      = (logged w ++ invocation_log ctx1 ++ body)%list
    /\ logged (fst (m2 (log_more (invocation_log ctx2) w)))
      = (logged w ++ invocation_log ctx2 ++ body)%list.
Proof.
  intros Hc Hs.
  destruct (Hs _ _ (alike_after_invocation t1 t2 ctx1 ctx2 w Hc))
    as [(body & H1 & H2 & _) _].
  exists body. by rewrite H1, H2, <- !app_assoc.
Qed.

(** The server of [Cases.guarded] answers its two tokens alike, though it
    refuses every other token. *)
Lemma guarded_answers_alike :
  answers_alike (client Cases.guarded) "s3cr3t" "0th3r"
  /\ Client.on_get_files (client Cases.guarded) [] "wf" "guess"
     = Raised Cases.unauthorized.
Proof. split; [by intros hist _|reflexivity]. Qed.

(** C8, as amended: every command writes each of its parameters with its
    value to the debug log, the access token among them; nothing else in
    the log comes from the token.  For two tokens that are present and that
    the client answers alike, the logs of a command are the same after the
    dump of the parameters. *)
Theorem token_logged_by_the_parameter_dump_only
    env ctx1 ctx2 workflow _filter output_format file_ output_directory filenames
    t1 t2 w :
  truthy (Some t1) = true ->
  truthy (Some t2) = true ->
  answers_alike (client env) t1 t2 ->
  calls w = [] ->
  let same_after_dump (run : Context -> option string -> M unit) :=
    exists body,
      logged (fst (run ctx1 (Some t1) w))
        = (logged w ++ invocation_log ctx1 ++ body)%list
      /\ logged (fst (run ctx2 (Some t2) w))
        = (logged w ++ invocation_log ctx2 ++ body)%list in
  (In ("access_token", VStr t1) (params ctx1) ->
   In (DEBUG, "access_token: " +:+ t1) (invocation_log ctx1))
  /\ same_after_dump
       (fun ctx token => get_files env ctx workflow _filter output_format token)
  /\ same_after_dump
       (fun ctx token => download_files env ctx workflow file_ output_directory token)
  /\ same_after_dump
       (fun ctx token => upload_files env ctx workflow filenames token).
Proof.
  intros H1 H2 Hb Hc same.
  split; [apply (dump_shows_parameter ctx1 "access_token" (VStr t1))|].
  unfold same, get_files, download_files, upload_files.
  rewrite !prologue_run by done.
  destruct (sim_commands t1 t2 (logged w ++ invocation_log ctx1)
              (logged w ++ invocation_log ctx2) env workflow _filter output_format
              file_ output_directory filenames Hb) as (Hl & Hd & Hu).
  repeat split; by apply (sim_splits_log t1 t2).
Qed.

Lemma token_logged_by_the_parameter_dump_only_witness :
  exists body,
    logged (fst (download_files Cases.guarded (Demo.ctx "download" (Some "s3cr3t"))
                   (Some "wf") ["missing.txt"] "/tmp/x" (Some "s3cr3t") Demo.world))
      = ([] ++ invocation_log (Demo.ctx "download" (Some "s3cr3t")) ++ body)%list
    /\ logged (fst (download_files Cases.guarded (Demo.ctx "download" (Some "0th3r"))
                   (Some "wf") ["missing.txt"] "/tmp/x" (Some "0th3r") Demo.world))
      = ([] ++ invocation_log (Demo.ctx "download" (Some "0th3r")) ++ body)%list.
Proof.
  refine (proj1 (proj2 (proj2
    (token_logged_by_the_parameter_dump_only Cases.guarded
       (Demo.ctx "download" (Some "s3cr3t")) (Demo.ctx "download" (Some "0th3r"))
       (Some "wf") [] None ["missing.txt"] "/tmp/x" [] "s3cr3t" "0th3r" Demo.world
       eq_refl eq_refl _ eq_refl)))).
  by intros hist _.
Defined.

(** C8 as it is stated does not hold: the dump of the parameters puts the
    token into the log. *)
Lemma token_in_the_debug_log :
  ~ token_never_logged "s3cr3t"
      (fst (get_files Demo.env (Demo.ctx "list" (Some "s3cr3t")) (Some "wf") [] None
              (Some "s3cr3t") Demo.world)).
Proof.
  intros H. specialize (H DEBUG "access_token: s3cr3t").
  assert (Hin : In (DEBUG, "access_token: s3cr3t")
                   (logged (fst (get_files Demo.env (Demo.ctx "list" (Some "s3cr3t"))
                                   (Some "wf") [] None (Some "s3cr3t") Demo.world))))
    by (vm_compute; tauto).
  apply H in Hin. by vm_compute in Hin.
Qed.

(** * Further properties of the commands *)

(** ** What a computation leaves alone *)

Lemma keeps_ret {X A} (aspect : World -> X) (a : A) : keeps aspect (ret a).
Proof. by intros w. Qed.

Lemma keeps_raise {X A} (aspect : World -> X) e : keeps aspect (@raise A e).
Proof. by intros w. Qed.

Lemma keeps_bind {X A B} (aspect : World -> X) (m : M A) (k : A -> M B) :
  keeps aspect m -> (forall a, keeps aspect (k a)) -> keeps aspect (x <- m ;; k x).
Proof.
  intros Hm Hk w. unfold bind. specialize (Hm w).
  destruct (m w) as [w1 [a|e|c]]; simpl in *; [|done..].
  by rewrite Hk.
Qed.

Lemma keeps_for {X A} (aspect : World -> X) (l : list A) body :
  (forall x, keeps aspect (body x)) -> keeps aspect (for_ l body).
Proof.
  intros H. induction l as [|x l IH]; simpl; [apply keeps_ret|].
  by apply keeps_bind.
Qed.

Lemma keeps_map_M {X A B} (aspect : World -> X) (f : A -> M B) l :
  (forall x, keeps aspect (f x)) -> keeps aspect (map_M f l).
Proof.
  intros H. induction l as [|x l IH]; simpl; [apply keeps_ret|].
  apply keeps_bind; [done|]. intros y.
  apply keeps_bind; [done|]. intros ys. apply keeps_ret.
Qed.

Lemma keeps_lift {X A} (aspect : World -> X) (r : result A) :
  keeps aspect (lift_result r).
Proof. destruct r; [apply keeps_ret|apply keeps_raise]. Qed.

Lemma keeps_getitem {X} (aspect : World -> X) d key : keeps aspect (getitem d key).
Proof. unfold getitem. destruct (dict_get d key); [apply keeps_ret|apply keeps_raise]. Qed.

Lemma keeps_try {X A} (aspect : World -> X) (body : M A) handlers :
  keeps aspect body ->
  Forall (fun h => forall e, keeps aspect (snd h e)) handlers ->
  keeps aspect (try_except body handlers).
Proof.
  intros Hb Hh w. unfold try_except. specialize (Hb w).
  destruct (body w) as [w1 [a|e|c]]; simpl in *; [done| |done].
  destruct (find _ handlers) as [h|] eqn:F; [|done].
  apply find_some in F as [Hin _]. apply list_elem_of_In in Hin.
  rewrite Forall_forall in Hh. by rewrite (Hh h Hin e w1).
Qed.

Lemma keeps_handler {X} (aspect : World -> X) env text e :
  (forall l w, aspect (log_more l w) = aspect w) ->
  (forall l w, aspect (echo_more l w) = aspect w) ->
  keeps aspect (logging_debug (format_exc env e) ;; logging_debug (exn_str e) ;;
                echo text true).
Proof. intros Hl He w. rewrite handler_run. cbn [fst]. by rewrite He, Hl. Qed.

Lemma project_stays r : keeps (fun w => w) (project r).
Proof.
  unfold project.
  repeat (apply keeps_bind; [apply keeps_getitem|intros ?]). apply keeps_ret.
Qed.

Lemma keeps_files_logging l msg : keeps files_on_disk (logging l msg).
Proof. by intros w. Qed.

Lemma keeps_files_echo text err : keeps files_on_disk (echo text err).
Proof. by intros w. Qed.

Lemma keeps_files_remote {A} c (answer : list Client.call -> result A) :
  keeps files_on_disk (remote c answer).
Proof. by intros w. Qed.

Lemma keeps_calls_logging l msg : keeps calls (logging l msg).
Proof. by intros w. Qed.

Lemma keeps_calls_echo text err : keeps calls (echo text err).
Proof. by intros w. Qed.

Lemma keeps_files_logging_invocation ctx : keeps files_on_disk (log_invocation ctx).
Proof. intros w. by rewrite log_invocation_run. Qed.

Lemma keeps_files_require env access_token :
  keeps files_on_disk (require_access_token env access_token).
Proof. intros w. unfold require_access_token. by destruct (truthy access_token). Qed.

(** X10: [list] and [upload] never change a local file: whatever the client
    answers and whatever fails, the file system after the command is the
    file system before it. *)
Theorem list_and_upload_leave_the_files_alone
    env ctx workflow _filter output_format filenames access_token w :
  files_on_disk (fst (get_files env ctx workflow _filter output_format access_token w))
  = files_on_disk w
  /\ files_on_disk (fst (upload_files env ctx workflow filenames access_token w))
     = files_on_disk w.
Proof.
  assert (Hh : forall text e,
            keeps files_on_disk
              (logging_debug (format_exc env e) ;; logging_debug (exn_str e) ;;
               echo text true)).
  { intros text e. by apply keeps_handler. }
  split.
  - revert w. change (keeps files_on_disk
      (get_files env ctx workflow _filter output_format access_token)).
    unfold get_files.
    apply keeps_bind; [apply keeps_files_logging_invocation|]. intros _.
    apply keeps_bind; [apply keeps_files_require|]. intros _.
    destruct (truthy workflow); [|apply keeps_files_echo].
    apply keeps_bind; [apply keeps_files_logging|]. intros _.
    apply keeps_try.
    + unfold get_files_try, client_get_files.
      apply keeps_bind; [apply keeps_files_remote|]. intros response.
      apply keeps_bind.
      { apply keeps_map_M. intros r w0.
        by rewrite (project_stays r w0). }
      intros data. destruct (truthy output_format).
      * apply keeps_bind; [destruct _filter; [apply keeps_ret|apply keeps_lift]|].
        intros [d|]; [|apply keeps_raise].
        apply keeps_bind; [apply keeps_lift|]. intros s. apply keeps_files_echo.
      * cbn zeta. apply keeps_bind;
          [apply keeps_for; intros; apply keeps_files_echo|].
        intros _. destruct (snd _); [apply keeps_raise|apply keeps_ret].
    + constructor 2; [intros e; apply Hh|constructor 1].
  - revert w. change (keeps files_on_disk
      (upload_files env ctx workflow filenames access_token)).
    unfold upload_files.
    apply keeps_bind; [apply keeps_files_logging_invocation|]. intros _.
    apply keeps_bind; [apply keeps_files_require|]. intros _.
    destruct (truthy workflow); [|apply keeps_files_echo].
    apply keeps_for. intros f. unfold upload_one. apply keeps_try.
    + unfold client_upload_to_server.
      apply keeps_bind; [apply keeps_files_remote|]. intros response.
      apply keeps_for. intros file_. apply keeps_files_echo.
    + repeat (constructor 2; [intros e; apply Hh|]). constructor 1.
Qed.

(** ** The calls a command makes *)

Lemma try_remote_calls {A} c (answer : list Client.call -> result A)
    (k : A -> M unit) handlers w :
  (forall a, keeps calls (k a)) ->
  Forall (fun h => forall e, keeps calls (snd h e)) handlers ->
  calls (fst (try_except (x <- remote c answer ;; k x) handlers w))
  = (calls w ++ [c])%list.
Proof.
  intros Hk Hh.
  assert (Hb : calls (fst ((x <- remote c answer ;; k x) w)) = (calls w ++ [c])%list).
  { unfold bind, remote. destruct (answer (calls w)); [|done]. by rewrite Hk. }
  unfold try_except.
  destruct ((x <- remote c answer ;; k x) w) as [w1 [a|e|code]]; simpl in *;
    [done| |done].
  destruct (find _ handlers) as [h|] eqn:F; [|done].
  apply find_some in F as [Hin _]. apply list_elem_of_In in Hin.
  rewrite Forall_forall in Hh. by rewrite (Hh h Hin e w1).
Qed.

(** X11: With a token and a workflow, [list] calls the client exactly once, and
    the call is [get_files] with the workflow and the token it was given;
    this is so whether the call, the records or the output fail or not. *)
Theorem list_calls_the_client_once
    env ctx workflow _filter output_format access_token w :
  truthy access_token = true ->
  truthy workflow = true ->
  calls (fst (get_files env ctx workflow _filter output_format access_token w))
  = (calls w ++ [Client.get_files (the workflow) (the access_token)])%list.
Proof.
  intros Ht Hw. rewrite get_files_present by done.
  unfold get_files_try, client_get_files. rewrite try_remote_calls; [done| |].
  - intros response. apply keeps_bind.
    { apply keeps_map_M. intros r w0. by rewrite (project_stays r w0). }
    intros data. destruct (truthy output_format).
    + apply keeps_bind; [destruct _filter; [apply keeps_ret|apply keeps_lift]|].
      intros [d|]; [|apply keeps_raise].
      apply keeps_bind; [apply keeps_lift|]. intros s. apply keeps_calls_echo.
    + cbn zeta. apply keeps_bind; [apply keeps_for; intros; apply keeps_calls_echo|].
      intros _. destruct (snd _); [apply keeps_raise|apply keeps_ret].
  - constructor 2; [|constructor 1]. intros e. by apply keeps_handler.
Qed.

Lemma list_calls_the_client_once_witness :
  calls (fst (get_files Cases.env (Demo.ctx "list" (Some "tok")) (Some "wf") []
                (Some "json") (Some "tok") Demo.world))
  = [Client.get_files "wf" "tok"].
Proof.
  exact (list_calls_the_client_once Cases.env (Demo.ctx "list" (Some "tok"))
           (Some "wf") [] (Some "json") (Some "tok") Demo.world eq_refl eq_refl).
Defined.

(** X2: With a token and a workflow, [download] asks the client for every FILE
    argument exactly once, in the order given and with the workflow and the
    token it was given, whatever happened to the files before. *)
Theorem download_asks_for_every_file
    env ctx workflow file_ output_directory access_token w :
  truthy access_token = true ->
  truthy workflow = true ->
  calls (fst (download_files env ctx workflow file_ output_directory access_token w))
  = (calls w ++ map (fun f => Client.download_file (the workflow) f (the access_token))
                    file_)%list.
Proof. apply download_loop_calls. Qed.

Lemma download_asks_for_every_file_witness :
  calls (fst (download_files Demo.env (Demo.ctx "download" (Some "tok")) (Some "wf")
                ["offline.bin"; "missing.txt"; "out/result.txt"] "/tmp/x"
                (Some "tok") Demo.world))
  = [Client.download_file "wf" "offline.bin" "tok";
     Client.download_file "wf" "missing.txt" "tok";
     Client.download_file "wf" "out/result.txt" "tok"].
Proof.
  exact (download_asks_for_every_file Demo.env (Demo.ctx "download" (Some "tok"))
           (Some "wf") ["offline.bin"; "missing.txt"; "out/result.txt"] "/tmp/x"
           (Some "tok") Demo.world eq_refl eq_refl).
Defined.

(** ** What a download prints and leaves behind *)

Lemma download_try_echo env workflow output_directory access_token file_name w :
  match snd (download_try env workflow output_directory access_token file_name w) with
  | Return _ =>
      echoed (fst (download_try env workflow output_directory access_token
                     file_name w))
      = (echoed w
         ++ [mkEcho (style (downloaded_message file_name output_directory) green)
                    false])%list
  | Raise _ =>
      echoed (fst (download_try env workflow output_directory access_token
                     file_name w))
      = echoed w
  | Exit _ => False
  end.
Proof.
  destruct (Client.on_download_file (client env) (calls w) workflow file_name
              access_token) as [b|e] eqn:Hc.
  - rewrite (download_try_run _ _ _ _ _ _ b Hc). cbn zeta.
    set (made := if Os.path_exists _ _ then _ else _).
    destruct (snd made); [done|]. by destruct (Os.write_binary _ _ _).
  - by erewrite client_download_failure.
Qed.

Lemma download_one_echo env workflow output_directory access_token file_name w :
  exists line,
    echoed (fst (download_one env workflow output_directory access_token file_name w))
    = (echoed w ++ [line])%list
    /\ download_report output_directory file_name line.
Proof.
  pose proof (download_try_echo env workflow output_directory access_token
                file_name w) as He.
  destruct (download_try env workflow output_directory access_token file_name w)
    as [w1 [[]|e|c]] eqn:E; simpl in He; [| |done].
  - eexists. split; [|by left].
    unfold download_one. by erewrite try_except_return.
  - erewrite download_one_raised by exact E. simpl. rewrite He.
    eexists. split; [done|].
    destruct (isinstance e OSError); [by right; left|by right; right; eexists].
Qed.

(** X1: [download] prints exactly one line for every FILE argument, in the
    order of the arguments: the green success line on the output stream, or
    a red line on the error stream that says the file could not be written
    or could not be downloaded. *)
Theorem download_reports_every_file
    env ctx workflow file_ output_directory access_token w :
  truthy access_token = true ->
  truthy workflow = true ->
  exists lines,
    echoed (fst (download_files env ctx workflow file_ output_directory
                   access_token w))
    = (echoed w ++ lines)%list
    /\ Forall2 (download_report output_directory) file_ lines.
Proof.
  intros Ht Hw. unfold download_files. rewrite prologue_run by done. rewrite Hw.
  change (echoed w) with (echoed (log_more (invocation_log ctx) w)).
  generalize (log_more (invocation_log ctx) w). clear w.
  induction file_ as [|f l IH]; intros w.
  - exists []. split; [by rewrite app_nil_r|constructor].
  - rewrite for_cons by (intros; apply download_one_returns).
    destruct (download_one_echo env (the workflow) output_directory
                (the access_token) f w) as (line & He & Hr).
    destruct (IH (fst (download_one env (the workflow) output_directory
                         (the access_token) f w))) as (lines & Hl & Hrs).
    exists (line :: lines). split; [|by constructor].
    rewrite Hl, He. by rewrite <- app_assoc.
Qed.

Lemma download_reports_every_file_witness :
  exists lines,
    echoed (fst (download_files Demo.env (Demo.ctx "download" (Some "tok"))
                   (Some "wf") ["missing.txt"; "out/result.txt"] "/tmp/x"
                   (Some "tok") Demo.world))
    = ([] ++ lines)%list
    /\ Forall2 (download_report "/tmp/x") ["missing.txt"; "out/result.txt"] lines.
Proof.
  exact (download_reports_every_file Demo.env (Demo.ctx "download" (Some "tok"))
           (Some "wf") ["missing.txt"; "out/result.txt"] "/tmp/x" (Some "tok")
           Demo.world eq_refl eq_refl).
Defined.

(** X3: When the remote call for a file raises, the download changes no local
    file: in particular a copy written by an earlier download keeps its
    content. *)
Theorem failed_fetch_leaves_the_files_alone
    env workflow output_directory access_token file_name w e :
  Client.on_download_file (client env) (calls w) workflow file_name access_token
    = Raised e ->
  files_on_disk (fst (download_one env workflow output_directory access_token
                        file_name w))
  = files_on_disk w
  /\ Os.read_file
       (files_on_disk (fst (download_one env workflow output_directory access_token
                              file_name w)))
       (Os.path_join output_directory file_name)
     = Os.read_file (files_on_disk w) (Os.path_join output_directory file_name).
Proof.
  intros H.
  erewrite download_one_raised by (by apply client_download_failure). done.
Qed.

Lemma failed_fetch_leaves_the_files_alone_witness :
  Os.read_file
    (files_on_disk (fst (download_one Cases.offline "wf" "/tmp/x" "tok"
                           "out/result.txt" (mkWorld [] [] [] Demo.fs_result))))
    "/tmp/x/out/result.txt"
  = Some [Byte.x68; Byte.x69].
Proof.
  exact (eq_trans
           (proj2 (failed_fetch_leaves_the_files_alone Cases.offline "wf" "/tmp/x"
                     "tok" "out/result.txt" (mkWorld [] [] [] Demo.fs_result)
                     (mkExn ConnectionError "Connection refused") eq_refl))
           eq_refl).
Defined.

(** X4: When the parent directory had to be created and the write then fails,
    the file is reported as not written and what [makedirs] created stays:
    the download does not undo it.  The directory itself is there, unless
    the parent path ends in the component [.], where [makedirs] can return
    without having made it. *)
Theorem failed_write_leaves_the_new_directory
    env workflow output_directory access_token file_name w b fs1 e :
  let outputs_file_path := Os.path_join output_directory file_name in
  let parent := Os.path_dirname outputs_file_path in
  Client.on_download_file (client env) (calls w) workflow file_name access_token
    = Ok b ->
  Os.path_exists (files_on_disk w) parent = false ->
  Os.makedirs (files_on_disk w) parent = Ok fs1 ->
  Os.write_binary fs1 outputs_file_path b = Raised e ->
  download_one env workflow output_directory access_token file_name w
  = (echo_more [mkEcho (style (not_written_message file_name) red) true]
       (log_more [(DEBUG, format_exc env e); (DEBUG, exn_str e)]
          (set_files fs1
             (log_more [(INFO, writing_message file_name output_directory)]
                (call_more [Client.download_file workflow file_name access_token]
                   w)))),
     Return tt)
  /\ (snd (Os.makedirs_split parent) <> "." -> Os.isdir fs1 parent = true)
  /\ grown (files_on_disk w) fs1.
Proof.
  intros p d Hc He Hm Hw. subst p d.
  split; [|split; [intros Hd; by apply (makedirs_isdir _ _ _ Hd Hm)
                  |by apply (makedirs_grown _ _ _ Hm)]].
  apply (download_one_not_opened _ _ _ _ _ _ b); [done| |done]. by rewrite He.
Qed.

Lemma failed_write_leaves_the_new_directory_witness :
  Os.isdir Demo.fs "/tmp/x/new" = false
  /\ Os.isdir
       (files_on_disk (fst (download_one Demo.env "wf" "/tmp/x" "tok" "new/"
                              Demo.world)))
       "/tmp/x/new" = true
  /\ echoed (fst (download_one Demo.env "wf" "/tmp/x" "tok" "new/" Demo.world))
     = [mkEcho (style "File new/ could not be written." red) true].
Proof.
  destruct (failed_write_leaves_the_new_directory Demo.env "wf" "/tmp/x" "tok" "new/"
              Demo.world [Byte.x68; Byte.x69]
              (Os.mkFS ["home"] (<[ ["tmp"; "x"; "new"] := Os.Dir ]> (Os.tree Demo.fs)))
              (Os.eisdir "/tmp/x/new/"))
    as (Hrun & Hdir & _); [reflexivity..| |]; [vm_compute; reflexivity..|].
  split; [reflexivity|]. rewrite Hrun. split; [|reflexivity].
  apply Hdir. vm_compute. discriminate.
Defined.

(** Where the directory is not there after [makedirs] has returned: the
    path ends in [.] and leads, through a directory that [makedirs] has to
    create, to a regular file. *)
Example makedirs_returns_at_a_file :
  Os.path_exists Cases.fs_f "/tmp/x/a/../f/." = false
  /\ (exists fs1, Os.makedirs Cases.fs_f "/tmp/x/a/../f/." = Ok fs1
                  /\ Os.isdir fs1 "/tmp/x/a" = true
                  /\ Os.isdir fs1 "/tmp/x/a/../f/." = false)
  /\ echoed (fst (download_one Demo.env "wf" "/tmp/x" "tok" "a/../f/./r.txt"
                    (mkWorld [] [] [] Cases.fs_f)))
     = [mkEcho (style "File a/../f/./r.txt could not be written." red) true].
Proof.
  split; [reflexivity|]. split; [|vm_compute; reflexivity].
  eexists. split; [vm_compute; reflexivity|]. split; vm_compute; reflexivity.
Qed.

(** ** Where a download writes *)

Lemma has_char_none c s :
  has_char c s = false ->
  Forall (fun a => Ascii.eqb a c = false) (list_ascii_of_string s).
Proof.
  induction s as [|a s IH]; simpl; [constructor|].
  intros H. apply orb_false_iff in H as [Ha Hs]. constructor; auto.
Qed.

Lemma drop_tail_none l :
  Forall (fun a => Ascii.eqb a Os.slash = false) l -> Os.drop_tail l = [].
Proof. induction 1 as [|a l Ha _ IH]; simpl; [done|]. by rewrite Ha. Qed.

Lemma dirname_without_slash f :
  has_char Os.slash f = false -> Os.path_dirname f = EmptyString.
Proof.
  intros H. unfold Os.path_dirname.
  rewrite drop_tail_none; [done|].
  apply List.Forall_rev. by apply has_char_none.
Qed.

Lemma join_to_empty f :
  has_char Os.slash f = false -> Os.path_join EmptyString f = f.
Proof.
  intros H. unfold Os.path_join.
  destruct f as [|a f]; [done|]. simpl in *.
  apply orb_false_iff in H as [-> _]. done.
Qed.

(** X5: With the empty string as output directory, a file whose name has no
    directory part is never written: its parent directory is the empty
    path, which does not exist and cannot be created, so that the content
    which has arrived is dropped and the file reported as not written. *)
Theorem empty_output_directory_writes_nothing
    env workflow access_token file_name w b :
  has_char Os.slash file_name = false ->
  Client.on_download_file (client env) (calls w) workflow file_name access_token
    = Ok b ->
  download_one env workflow EmptyString access_token file_name w
  = (echo_more [mkEcho (style (not_written_message file_name) red) true]
       (log_more [(DEBUG, format_exc env (Os.enoent EmptyString));
                  (DEBUG, exn_str (Os.enoent EmptyString))]
          (log_more [(INFO, writing_message file_name EmptyString)]
             (call_more [Client.download_file workflow file_name access_token] w))),
     Return tt).
Proof.
  intros Hs Hc.
  rewrite (download_one_not_made _ _ _ _ _ _ b (files_on_disk w)
             (Os.enoent EmptyString) Hc);
    rewrite ?join_to_empty, ?dirname_without_slash by done;
    [by destruct w|reflexivity|apply makedirs_empty].
Qed.

Lemma empty_output_directory_writes_nothing_witness :
  download_one Demo.env "wf" EmptyString "tok" "result.txt" Demo.world
  = (mkWorld [(INFO, "result.txt binary file downloaded ... writing to ");
              (DEBUG, format_exc Demo.env (Os.enoent EmptyString));
              (DEBUG, "[Errno 2] No such file or directory: ''")]
             [mkEcho (style "File result.txt could not be written." red) true]
             [Client.download_file "wf" "result.txt" "tok"] Demo.fs,
     Return tt).
Proof.
  exact (empty_output_directory_writes_nothing Demo.env "wf" "tok" "result.txt"
           Demo.world [Byte.x68; Byte.x69] eq_refl eq_refl).
Defined.

Lemma join_absolute a f : Os.startswith_slash f = true -> Os.path_join a f = f.
Proof. intros H. unfold Os.path_join. by rewrite H. Qed.

(** X6: A FILE argument that starts with a slash names the destination by
    itself, whatever the output directory is: when its directory is there
    or can be made and the file can be opened, the content is written at
    that very path, while the success message still names the output
    directory, [File F downloaded to D.] *)
Theorem absolute_file_name_ignores_the_output_directory
    env workflow output_directory access_token file_name w b fs1 fs2 :
  Os.startswith_slash file_name = true ->
  Client.on_download_file (client env) (calls w) workflow file_name access_token
    = Ok b ->
  (if Os.path_exists (files_on_disk w) (Os.path_dirname file_name)
   then Ok (files_on_disk w)
   else Os.makedirs (files_on_disk w) (Os.path_dirname file_name)) = Ok fs1 ->
  Os.write_binary fs1 file_name b = Ok fs2 ->
  Os.path_join output_directory file_name = file_name
  /\ download_one env workflow output_directory access_token file_name w
     = (echo_more
          [mkEcho (style ("File " +:+ file_name +:+ " downloaded to "
                          +:+ output_directory +:+ ".") green) false]
          (set_files fs2
             (log_more [(INFO, writing_message file_name output_directory)]
                (call_more [Client.download_file workflow file_name access_token]
                   w))),
        Return tt)
  /\ Os.read_binary fs2 file_name = Ok b.
Proof.
  intros Ha Hc Hd Hw.
  split; [by apply join_absolute|].
  split; [|by apply (read_binary_after_write fs1)].
  rewrite <- downloaded_message_text.
  apply (download_one_written _ _ _ _ _ _ b fs1); [done|..];
    by rewrite (join_absolute _ _ Ha).
Qed.

Lemma absolute_file_name_ignores_the_output_directory_witness :
  Os.read_binary
    (files_on_disk (fst (download_one Demo.env "wf" "/tmp/x" "tok" "/tmp/elsewhere"
                           Demo.world)))
    "/tmp/elsewhere" = Ok [Byte.x68; Byte.x69]
  /\ echoed (fst (download_one Demo.env "wf" "/tmp/x" "tok" "/tmp/elsewhere"
                    Demo.world))
     = [mkEcho (style "File /tmp/elsewhere downloaded to /tmp/x." green) false].
Proof.
  destruct (absolute_file_name_ignores_the_output_directory Demo.env "wf" "/tmp/x"
              "tok" "/tmp/elsewhere" Demo.world [Byte.x68; Byte.x69] Demo.fs
              (Os.mkFS ["home"]
                 (<[ ["tmp"; "elsewhere"] := Os.File [Byte.x68; Byte.x69] ]>
                    (Os.tree Demo.fs))))
    as (_ & Hrun & Hread); [reflexivity..| |]; [vm_compute; reflexivity..|].
  rewrite Hrun. by split.
Defined.

(** A name that goes through a missing directory and back: [..] is looked
    up in the directory before it, which [makedirs] creates before it
    fails, so that the file is not written and the directory walked
    through is left behind. *)
Example file_name_through_a_missing_directory :
  let run := download_one Demo.env "wf" "/tmp/x" "tok" "a/../f.txt" Demo.world in
  echoed (fst run) = [mkEcho (style "File a/../f.txt could not be written." red) true]
  /\ Os.path_exists (files_on_disk (fst run)) "/tmp/x/f.txt" = false
  /\ Os.isdir (files_on_disk (fst run)) "/tmp/x/a" = true.
Proof. vm_compute. by repeat split. Qed.

(** ** What an upload prints *)

(** X8: When the server accepts a file, [upload] prints one green line on the
    output stream for every identifier the call returned, in their order
    and naming the identifier, not the local path; when the call returns
    no identifier, nothing at all is printed for the file.  Nothing is
    logged. *)
Theorem upload_prints_a_line_for_every_identifier
    env workflow access_token filename w response :
  Client.on_upload_to_server (client env) (calls w) workflow filename access_token
    = Ok response ->
  upload_one env workflow access_token filename w
  = (echo_more
       (map (fun file_ => mkEcho (style (uploaded_message file_) green) false)
            response)
       (call_more [Client.upload_to_server workflow filename access_token] w),
     Return tt)
  /\ (response = [] ->
      echoed (fst (upload_one env workflow access_token filename w)) = echoed w).
Proof.
  intros H. rewrite (upload_one_uploaded _ _ _ _ _ _ H). split; [done|].
  intros ->. simpl. by rewrite app_nil_r.
Qed.

Lemma upload_prints_a_line_for_every_identifier_witness :
  upload_one Cases.env "wf" "tok" "/data/dir" Demo.world
  = (mkWorld []
             [mkEcho (style "File dir/one was successfully uploaded." green) false;
              mkEcho (style "File dir/two was successfully uploaded." green) false]
             [Client.upload_to_server "wf" "/data/dir" "tok"] Demo.fs,
     Return tt).
Proof.
  exact (proj1 (upload_prints_a_line_for_every_identifier Cases.env "wf" "tok"
                  "/data/dir" Demo.world ["dir/one"; "dir/two"] eq_refl)).
Defined.

Lemma upload_one_echo env workflow access_token filename w :
  exists lines,
    echoed (fst (upload_one env workflow access_token filename w))
    = (echoed w ++ lines)%list
    /\ upload_report filename lines.
Proof.
  destruct (Client.on_upload_to_server (client env) (calls w) workflow filename
              access_token) as [l|e] eqn:E.
  - erewrite upload_one_uploaded by exact E.
    eexists. split; [done|]. left. by eexists.
  - erewrite upload_one_raised by (by apply client_upload_failure).
    eexists. split; [done|].
    destruct (isinstance e FileUploadError); [right; right; by eexists|by right; left].
Qed.

(** X9: What [upload] prints is, file by file and in the order of the
    arguments, either the green lines for the identifiers returned, on the
    output stream, or a single red line on the error stream. *)
Theorem upload_reports_every_file
    env ctx workflow filenames access_token w :
  truthy access_token = true ->
  truthy workflow = true ->
  exists blocks,
    echoed (fst (upload_files env ctx workflow filenames access_token w))
    = (echoed w ++ concat blocks)%list
    /\ Forall2 upload_report filenames blocks.
Proof.
  intros Ht Hw. unfold upload_files. rewrite prologue_run by done. rewrite Hw.
  change (echoed w) with (echoed (log_more (invocation_log ctx) w)).
  generalize (log_more (invocation_log ctx) w). clear w.
  induction filenames as [|f l IH]; intros w.
  - exists []. split; [by rewrite app_nil_r|constructor].
  - rewrite for_cons by (intros; apply upload_one_returns).
    destruct (upload_one_echo env (the workflow) (the access_token) f w)
      as (lines & He & Hr).
    destruct (IH (fst (upload_one env (the workflow) (the access_token) f w)))
      as (blocks & Hl & Hrs).
    exists (lines :: blocks). split; [|by constructor].
    rewrite Hl, He. simpl. by rewrite <- app_assoc.
Qed.

Lemma upload_reports_every_file_witness :
  exists blocks,
    echoed (fst (upload_files Cases.env (Demo.ctx "upload" (Some "tok")) (Some "wf")
                   ["/data/dir"; "/data/broken"] (Some "tok") Demo.world))
    = ([] ++ concat blocks)%list
    /\ Forall2 upload_report ["/data/dir"; "/data/broken"] blocks.
Proof.
  exact (upload_reports_every_file Cases.env (Demo.ctx "upload" (Some "tok"))
           (Some "wf") ["/data/dir"; "/data/broken"] (Some "tok") Demo.world
           eq_refl eq_refl).
Defined.

(** ** What a listing prints *)

Lemma project_cases r w :
  (has_fields r /\ project r w = (w, Return (string_triple r)))
  \/ exists key, In key headers
                 /\ dict_get r key = None
                 /\ project r w = (w, Raise (mkExn KeyError (repr_str key))).
Proof.
  unfold project, getitem, bind, has_fields, string_triple, headers.
  destruct (dict_get r "name") as [name|] eqn:Hn;
    [|right; exists "name"; simpl; by rewrite Hn; auto].
  destruct (dict_get r "size") as [size|] eqn:Hs;
    [|right; exists "size"; simpl; by rewrite Hs; auto].
  destruct (dict_get r "last-modified") as [modified|] eqn:Hm;
    [|right; exists "last-modified"; simpl; by rewrite Hm; auto 6].
  left. simpl. rewrite Hn, Hs, Hm. split; [|done].
  repeat constructor; by eexists.
Qed.

(** The records are projected in order, and the first one that lacks a key
    ends the projection with the [KeyError] of that key. *)
Lemma map_M_project_cases rs w :
  (Forall has_fields rs /\ map_M project rs w = (w, Return (map string_triple rs)))
  \/ exists before r after key,
       rs = (before ++ r :: after)%list
       /\ Forall has_fields before
       /\ In key headers
       /\ dict_get r key = None
       /\ map_M project rs w = (w, Raise (mkExn KeyError (repr_str key))).
Proof.
  induction rs as [|r rs IH]; [left; by split|]. simpl.
  destruct (project_cases r w) as [[Hr Er]|(key & Hk & Hnone & Er)].
  - erewrite bind_run by exact Er.
    destruct IH as [[Hrs Ers]|(before & r' & after & key & -> & Hb & Hk & Hnone & Ers)].
    + left. split; [by constructor|]. by erewrite bind_run by exact Ers.
    + right. exists (r :: before), r', after, key.
      repeat split; [by constructor|done..|]. by erewrite bind_raise by exact Ers.
  - right. exists [], r, rs, key.
    repeat split; [constructor|done..|]. by erewrite bind_raise by exact Er.
Qed.

(** X12: A single record without one of the keys [name], [size] and
    [last-modified] spoils the whole listing: no row at all is printed, also
    not for the complete records before it, and the error stream gets the
    failure message for the workflow, whose text after the colon is the
    quoted name of a key that the first incomplete record lacks. *)
Theorem incomplete_record_spoils_the_listing
    env ctx workflow _filter output_format access_token w rs :
  truthy access_token = true ->
  truthy workflow = true ->
  Client.on_get_files (client env) (calls w) (the workflow) (the access_token)
    = Ok rs ->
  ~ Forall has_fields rs ->
  exists before r after key,
    rs = (before ++ r :: after)%list
    /\ Forall has_fields before
    /\ In key headers
    /\ dict_get r key = None
    /\ get_files env ctx workflow _filter output_format access_token w
       = (echo_more
            [mkEcho (style ("Something went wrong while retrieving file list"
                            +:+ " for workflow " +:+ the workflow +:+ ":"
                            +:+ String (ascii_of_N 10) (repr_str key)) red) true]
            (log_more [(DEBUG, format_exc env (mkExn KeyError (repr_str key)));
                       (DEBUG, repr_str key)]
               (call_more [Client.get_files (the workflow) (the access_token)]
                  (log_more (invocation_log ctx
                             ++ [(INFO, workflow_selected (the workflow))]) w))),
          Return tt).
Proof.
  intros Ht Hw Hc Hbad.
  set (started := log_more (invocation_log ctx
                            ++ [(INFO, workflow_selected (the workflow))]) w).
  destruct (map_M_project_cases rs
              (call_more [Client.get_files (the workflow) (the access_token)] started))
    as [[Hall _]|(before & r & after & key & Hrs & Hb & Hk & Hnone & Er)]; [done|].
  exists before, r, after, key. repeat split; try done.
  rewrite get_files_present by done. fold started.
  assert (Hbody : get_files_try env (the workflow) (the access_token) _filter
                    output_format started
                  = (call_more [Client.get_files (the workflow) (the access_token)]
                               started,
                     Raise (mkExn KeyError (repr_str key)))).
  { unfold get_files_try.
    erewrite bind_run by (by apply client_get_files_records).
    by erewrite bind_raise by exact Er. }
  rewrite (try_except_first _ _ _ _ _ _ _ Hbody (isinstance_Exception _)).
  by rewrite handler_run, get_files_failed_text.
Qed.

Lemma incomplete_record_spoils_the_listing_witness :
  exists before r after key,
    [Demo.a_txt; Cases.no_size] = (before ++ r :: after)%list
    /\ Forall has_fields before
    /\ In key headers
    /\ dict_get r key = None
    /\ get_files Cases.env (Demo.ctx "list" (Some "tok")) (Some "wf") [] None
                 (Some "tok") Demo.world
       = (echo_more
            [mkEcho (style ("Something went wrong while retrieving file list"
                            +:+ " for workflow " +:+ "wf" +:+ ":"
                            +:+ String (ascii_of_N 10) (repr_str key)) red) true]
            (log_more [(DEBUG, format_exc Cases.env (mkExn KeyError (repr_str key)));
                       (DEBUG, repr_str key)]
               (call_more [Client.get_files "wf" "tok"]
                  (log_more (invocation_log (Demo.ctx "list" (Some "tok"))
                             ++ [(INFO, workflow_selected "wf")]) Demo.world))),
          Return tt).
Proof.
  refine (incomplete_record_spoils_the_listing Cases.env
            (Demo.ctx "list" (Some "tok")) (Some "wf") [] None (Some "tok")
            Demo.world [Demo.a_txt; Cases.no_size] eq_refl eq_refl eq_refl _).
  intros H. apply Forall_cons in H as [_ H]. apply Forall_cons in H as [H _].
  unfold has_fields, headers in H.
  apply Forall_cons in H as [_ H]. apply Forall_cons in H as [[v Hv] _].
  discriminate Hv.
Defined.

(** The listing of that run: the record [a.txt] is complete, and still
    only the missing key of the second record is shown. *)
Example listing_with_a_record_without_size :
  get_files Cases.env (Demo.ctx "list" (Some "tok")) (Some "wf") [] None
            (Some "tok") Demo.world
  = (mkWorld [(DEBUG, "command: reana-client.files.list");
              (DEBUG, "workflow: wf"); (DEBUG, "access_token: tok");
              (INFO, workflow_selected "wf");
              (DEBUG, "Traceback (most recent call last): 'size'");
              (DEBUG, "'size'")]
             [mkEcho (style ("Something went wrong while retrieving file list"
                             +:+ " for workflow wf:"
                             +:+ String (ascii_of_N 10) "'size'") red) true]
             [Client.get_files "wf" "tok"] Demo.fs, Return tt).
Proof. reflexivity. Qed.

(** X13: With an output format and a filter, a [subset] that returns [None]
    (no dataset, as for a listing without rows) makes the export fail with
    an [AttributeError]: nothing is printed on the output stream, and the
    failure message for the workflow ends, after the colon, in
    ['NoneType' object has no attribute 'export']. *)
Theorem filtered_export_of_no_dataset_fails
    env ctx workflow _filter output_format access_token w rs :
  truthy access_token = true ->
  truthy workflow = true ->
  truthy output_format = true ->
  _filter <> [] ->
  Client.on_get_files (client env) (calls w) (the workflow) (the access_token)
    = Ok rs ->
  Forall has_fields rs ->
  tablib_subset env (mkDataset headers (map string_triple rs)) _filter = Ok None ->
  get_files env ctx workflow _filter output_format access_token w
  = (echo_more
       [mkEcho (style ("Something went wrong while retrieving file list"
                       +:+ " for workflow " +:+ the workflow +:+ ":"
                       +:+ String (ascii_of_N 10)
                             "'NoneType' object has no attribute 'export'") red)
               true]
       (log_more [(DEBUG, format_exc env
                            (mkExn AttributeError
                                   "'NoneType' object has no attribute 'export'"));
                  (DEBUG, "'NoneType' object has no attribute 'export'")]
          (call_more [Client.get_files (the workflow) (the access_token)]
             (log_more (invocation_log ctx
                        ++ [(INFO, workflow_selected (the workflow))]) w))),
     Return tt).
Proof.
  intros Ht Hw Hf Hne Hc Hrs Hs. rewrite get_files_present by done.
  set (started := log_more (invocation_log ctx
                            ++ [(INFO, workflow_selected (the workflow))]) w).
  assert (Hbody : get_files_try env (the workflow) (the access_token) _filter
                    output_format started
                  = (call_more [Client.get_files (the workflow) (the access_token)]
                               started,
                     Raise (mkExn AttributeError
                                  "'NoneType' object has no attribute 'export'"))).
  { unfold get_files_try.
    erewrite bind_run by (by apply client_get_files_records).
    erewrite bind_run by (by apply map_M_project).
    rewrite Hf. destruct _filter as [|c cs]; [done|]. rewrite Hs. reflexivity. }
  rewrite (try_except_first _ _ _ _ _ _ _ Hbody (isinstance_Exception _)).
  by rewrite handler_run, get_files_failed_text.
Qed.

Lemma filtered_export_of_no_dataset_fails_witness :
  get_files Cases.env (Demo.ctx "list" (Some "tok")) (Some "empty")
            ["name"] (Some "json") (Some "tok") Demo.world
  = (mkWorld [(DEBUG, "command: reana-client.files.list");
              (DEBUG, "workflow: wf"); (DEBUG, "access_token: tok");
              (INFO, workflow_selected "empty");
              (DEBUG, "Traceback (most recent call last): "
                      +:+ "'NoneType' object has no attribute 'export'");
              (DEBUG, "'NoneType' object has no attribute 'export'")]
             [mkEcho (style ("Something went wrong while retrieving file list"
                             +:+ " for workflow empty:"
                             +:+ String (ascii_of_N 10)
                                   "'NoneType' object has no attribute 'export'")
                            red) true]
             [Client.get_files "empty" "tok"] Demo.fs, Return tt).
Proof.
  refine (filtered_export_of_no_dataset_fails Cases.env
            (Demo.ctx "list" (Some "tok")) (Some "empty") ["name"] (Some "json")
            (Some "tok") Demo.world [] eq_refl eq_refl eq_refl
            _ eq_refl _ eq_refl).
  - discriminate.
  - constructor.
Defined.

Lemma get_files_try_with_format env workflow access_token _filter output_format w :
  truthy output_format = true ->
  (exists d exported,
     tablib_export env d (the output_format) = Ok exported
     /\ get_files_try env workflow access_token _filter output_format w
        = (echo_more [mkEcho exported false]
             (call_more [Client.get_files workflow access_token] w), Return tt))
  \/ exists e,
       get_files_try env workflow access_token _filter output_format w
       = (call_more [Client.get_files workflow access_token] w, Raise e).
Proof.
  intros Hf. unfold get_files_try.
  destruct (Client.on_get_files (client env) (calls w) workflow access_token)
    as [rs|e] eqn:Hc.
  2: { right. exists e. eapply bind_raise. by apply remote_raised. }
  erewrite bind_run by (by apply client_get_files_records).
  destruct (map_M_project_cases rs
              (call_more [Client.get_files workflow access_token] w))
    as [[_ Er]|(before & r & after & key & _ & _ & _ & _ & Er)].
  2: { right. eexists. by erewrite bind_raise by exact Er. }
  erewrite bind_run by exact Er. rewrite Hf.
  assert (Hexport : forall d w0,
    (exists exported,
       tablib_export env d (the output_format) = Ok exported
       /\ (exported <- lift_result (tablib_export env d (the output_format)) ;;
           echo exported false) w0
          = (echo_more [mkEcho exported false] w0, Return tt))
    \/ exists e,
         (exported <- lift_result (tablib_export env d (the output_format)) ;;
          echo exported false) w0 = (w0, Raise e)).
  { intros d w0. destruct (tablib_export env d (the output_format)) as [s|e].
    - left. by exists s.
    - right. by exists e. }
  set (w0 := call_more [Client.get_files workflow access_token] w).
  set (ds := mkDataset headers (map string_triple rs)).
  set (export := fun d => exported <- lift_result (tablib_export env d
                                                     (the output_format)) ;;
                          echo exported false).
  assert (Hsome : forall (m : M (option Dataset)) d,
            m w0 = (w0, Return (Some d)) ->
            (tablib_data <- m ;;
             match tablib_data with
             | Some d => export d
             | None => raise none_has_no_export
             end) w0 = export d w0).
  { intros m d Hm. by erewrite bind_run by exact Hm. }
  assert (Hdone : forall d,
            (exists d' exported,
               tablib_export env d' (the output_format) = Ok exported
               /\ export d w0 = (echo_more [mkEcho exported false] w0, Return tt))
            \/ exists e, export d w0 = (w0, Raise e)).
  { intros d. destruct (Hexport d w0) as [(s & Hs & Hr)|(e & Hr)].
    - left. by exists d, s.
    - right. by exists e. }
  destruct _filter as [|c cs].
  - rewrite (Hsome _ ds) by done. apply Hdone.
  - destruct (tablib_subset env ds (c :: cs)) as [[d|]|e] eqn:Hs.
    + rewrite (Hsome _ d) by done. apply Hdone.
    + right. exists none_has_no_export. by erewrite bind_run by done.
    + right. exists e. by erewrite bind_raise by done.
Qed.

(** X14: With an output format, [list] prints exactly one line: either the
    exported dataset on the output stream, or the failure message on the
    error stream.  The output stream never gets a part of the data followed
    by an error, nor an error text. *)
Theorem formatted_listing_prints_one_line
    env ctx workflow _filter output_format access_token w :
  truthy access_token = true ->
  truthy workflow = true ->
  truthy output_format = true ->
  exists line,
    echoed (fst (get_files env ctx workflow _filter output_format access_token w))
    = (echoed w ++ [line])%list
    /\ ((echo_err line = false
         /\ exists d, tablib_export env d (the output_format) = Ok (echo_text line))
        \/ (echo_err line = true
            /\ exists e,
                 echo_text line = style (get_files_failed (the workflow) e) red)).
Proof.
  intros Ht Hw Hf. rewrite get_files_present by done.
  destruct (get_files_try_with_format env (the workflow) (the access_token) _filter
              output_format
              (log_more (invocation_log ctx
                         ++ [(INFO, workflow_selected (the workflow))]) w) Hf)
    as [(d & s & Hs & Hr)|(e & Hr)].
  - erewrite try_except_return by exact Hr.
    eexists. split; [done|]. left. split; [done|]. by exists d.
  - erewrite try_except_first; [|exact Hr|apply isinstance_Exception].
    rewrite handler_run. eexists. split; [done|]. right. split; [done|]. by exists e.
Qed.

Lemma formatted_listing_prints_one_line_witness :
  exists line,
    echoed (fst (get_files Cases.offline (Demo.ctx "list" (Some "tok")) (Some "wf")
                   ["name"] (Some "json") (Some "tok") Demo.world))
    = ([] ++ [line])%list
    /\ ((echo_err line = false
         /\ exists d, tablib_export Cases.offline d "json" = Ok (echo_text line))
        \/ (echo_err line = true
            /\ exists e, echo_text line = style (get_files_failed "wf" e) red)).
Proof.
  exact (formatted_listing_prints_one_line Cases.offline
           (Demo.ctx "list" (Some "tok")) (Some "wf") ["name"] (Some "json")
           (Some "tok") Demo.world eq_refl eq_refl eq_refl).
Defined.

(** ** What is printed does not show the token *)

Lemma sim_same_echo t1 t2 ctx1 ctx2 (m1 m2 : M unit) w :
  calls w = [] ->
  sim t1 t2 (logged w ++ invocation_log ctx1) (logged w ++ invocation_log ctx2) m1 m2 ->
  echoed (fst (m2 (log_more (invocation_log ctx2) w)))
  = echoed (fst (m1 (log_more (invocation_log ctx1) w)))
  /\ snd (m2 (log_more (invocation_log ctx2) w))
     = snd (m1 (log_more (invocation_log ctx1) w)).
Proof.
  intros Hc Hs.
  destruct (Hs _ _ (alike_after_invocation t1 t2 ctx1 ctx2 w Hc))
    as [(body & _ & _ & He & _) Ho].
  by split.
Qed.

(** X15: Nothing that a command prints, on either stream, is made from the
    access token: for two tokens that are present and that the client
    answers alike, a command prints the same lines and ends in the same
    way, whatever the two contexts hold.  The client may refuse every
    other token. *)
Theorem printed_lines_do_not_depend_on_the_token
    env ctx1 ctx2 workflow _filter output_format file_ output_directory filenames
    t1 t2 w :
  truthy (Some t1) = true ->
  truthy (Some t2) = true ->
  answers_alike (client env) t1 t2 ->
  calls w = [] ->
  let same_output (run : Context -> option string -> M unit) :=
    echoed (fst (run ctx2 (Some t2) w)) = echoed (fst (run ctx1 (Some t1) w))
    /\ snd (run ctx2 (Some t2) w) = snd (run ctx1 (Some t1) w) in
  same_output
    (fun ctx token => get_files env ctx workflow _filter output_format token)
  /\ same_output
       (fun ctx token => download_files env ctx workflow file_ output_directory token)
  /\ same_output
       (fun ctx token => upload_files env ctx workflow filenames token).
Proof.
  intros H1 H2 Hb Hc same.
  unfold same, get_files, download_files, upload_files.
  rewrite !prologue_run by done.
  destruct (sim_commands t1 t2 (logged w ++ invocation_log ctx1)
              (logged w ++ invocation_log ctx2) env workflow _filter output_format
              file_ output_directory filenames Hb) as (Hl & Hd & Hu).
  split; [|split]; by apply (sim_same_echo t1 t2).
Qed.

Lemma printed_lines_do_not_depend_on_the_token_witness :
  echoed (fst (upload_files Cases.guarded (Demo.ctx "upload" (Some "0th3r"))
                 (Some "wf") ["/data/broken"; "/data/a"] (Some "0th3r") Demo.world))
  = echoed (fst (upload_files Cases.guarded (Demo.ctx "upload" (Some "s3cr3t"))
                   (Some "wf") ["/data/broken"; "/data/a"] (Some "s3cr3t")
                   Demo.world)).
Proof.
  refine (proj1 (proj2 (proj2
    (printed_lines_do_not_depend_on_the_token Cases.guarded
       (Demo.ctx "upload" (Some "s3cr3t")) (Demo.ctx "upload" (Some "0th3r"))
       (Some "wf") [] None [] "/tmp/x" ["/data/broken"; "/data/a"]
       "s3cr3t" "0th3r" Demo.world eq_refl eq_refl _ eq_refl)))).
  by intros hist _.
Defined.

(** A token the server refuses changes what is printed: the condition on
    the two tokens cannot be dropped. *)
Example refused_token_prints_otherwise :
  echoed (fst (upload_files Cases.guarded (Demo.ctx "upload" (Some "guess"))
                 (Some "wf") ["/data/a"] (Some "guess") Demo.world))
  = [mkEcho (style "Something went wrong while uploading /data/a" red) true]
  /\ echoed (fst (upload_files Cases.guarded (Demo.ctx "upload" (Some "s3cr3t"))
                    (Some "wf") ["/data/a"] (Some "s3cr3t") Demo.world))
     = [mkEcho (style "File /data/a was successfully uploaded." green) false].
Proof. by split. Qed.

(** ** A download touches one file only *)

Lemma download_try_other_files env workflow output_directory access_token file_name
    w q :
  Os.resolve (files_on_disk w) q
  <> Os.resolve (files_on_disk w) (Os.path_join output_directory file_name) ->
  Os.read_file
    (files_on_disk (fst (download_try env workflow output_directory access_token
                           file_name w))) q
  = Os.read_file (files_on_disk w) q.
Proof.
  intros Hq.
  destruct (Client.on_download_file (client env) (calls w) workflow file_name
              access_token) as [b|e] eqn:Hc;
    [|by erewrite client_download_failure].
  rewrite (download_try_run _ _ _ _ _ _ b Hc). cbn zeta.
  set (made := if Os.path_exists _ _ then _ else _).
  assert (G : grown (files_on_disk w) (fst made)).
  { unfold made. destruct (Os.path_exists _ _);
      [apply grown_refl|apply makedirs_run_grown]. }
  destruct (snd made); [by apply grown_keeps_contents|].
  destruct (Os.write_binary _ _ _) as [fs2|e] eqn:Hw;
    cbn [files_on_disk fst echo_more set_files];
    [|by apply grown_keeps_contents].
  rewrite (write_keeps_other_contents _ _ _ _ q Hw).
  - by apply grown_keeps_contents.
  - by rewrite !(resolve_cwd_eq _ _ (proj1 G)).
Qed.

(** X7: Whatever happens in the download of a file (success, a failed call, a
    failed write), the content of every other file is as before: only the
    node the destination path names can change its content. *)
Theorem download_keeps_the_other_files
    env workflow output_directory access_token file_name w q :
  Os.resolve (files_on_disk w) q
  <> Os.resolve (files_on_disk w) (Os.path_join output_directory file_name) ->
  Os.read_file
    (files_on_disk (fst (download_one env workflow output_directory access_token
                           file_name w))) q
  = Os.read_file (files_on_disk w) q.
Proof.
  intros Hq.
  pose proof (download_try_other_files env workflow output_directory access_token
                file_name w q Hq) as Hr.
  destruct (download_try env workflow output_directory access_token file_name w)
    as [w1 [[]|e|c]] eqn:E.
  - unfold download_one. by erewrite try_except_return.
  - erewrite download_one_raised by exact E. exact Hr.
  - by apply never_exits_download_try in E.
Qed.

Lemma download_keeps_the_other_files_witness :
  Os.read_file
    (files_on_disk (fst (download_one Demo.env "wf" "/tmp/x" "tok" "out/other.txt"
                           (mkWorld [] [] [] Demo.fs_result))))
    "/tmp/x/out/result.txt"
  = Some [Byte.x68; Byte.x69].
Proof.
  refine (eq_trans
            (download_keeps_the_other_files Demo.env "wf" "/tmp/x" "tok"
               "out/other.txt" (mkWorld [] [] [] Demo.fs_result)
               "/tmp/x/out/result.txt" _)
            eq_refl).
  vm_compute. discriminate.
Defined.
